(** * Dependent relationships for Ember Data 1.13: dirty tracking, change
      notification and rollback.

    Shallow embedding of [src/unnamed/part_000].  Records are named by their
    identity; the identity map of the store is a finite map from identities
    to internal models.  JavaScript objects used as dictionaries
    ([_dependentRelationships], the result of [changedRelationships]) are
    association lists in insertion order, because [Object.keys] and the
    short-circuiting [any] depend on that order.  A JavaScript exception
    ([TypeError] on a missing method) is the [Throw] outcome.

    Ember and Ember Data are outside the package.  Their functions the
    package calls ([Ember.compare], [Ember.isArray], [toArray], [sortBy],
    [Ember.makeArray], promises) are modelled on the values that occur
    here, with the behaviour of a production build; the state machine and
    the methods the package decorates are the interface [framework].  A
    record's [id] is its identity, and no relationship is named like a
    member of [Object.prototype]. *)

From Stdlib Require Import Ascii String ZArith.
From stdpp Require Import base option list strings gmap sorting.

Open Scope string_scope.

(** ** Values *)

Definition ident := nat.

Inductive kind := belongsTo | hasMany.

(** What a relationship property or a snapshot entry can hold. *)
Inductive value :=
| VUndefined
| VNull
| VRecord (r : ident)
| VArray (rs : list ident).

(** What [get(record, name)] returns for a relationship: the value itself for
    a synchronous relationship, or a promise proxy ([DS.PromiseObject] for a
    belongsTo, [DS.PromiseManyArray] around the many-array for a hasMany),
    which fulfils with its content or rejects when awaited. *)
Inductive jsprop :=
| Plain (v : value)
| PromiseObject (content : value) (fulfils : bool)
| PromiseManyArray (content : list ident) (fulfils : bool).

Inductive outcome (A : Type) :=
| Ret (a : A)
| Throw.
Arguments Ret {A} a.
Arguments Throw {A}.

Definition bind {A B} (m : outcome A) (f : A -> outcome B) : outcome B :=
  match m with Ret a => f a | Throw => Throw end.

Notation "'let!' x ':=' m 'in' k" := (bind m (fun x => k))
  (at level 10, x name, m at level 100, k at level 200).

(** Result of a JavaScript function that returns a boolean or falls off its
    end. *)
Inductive jsbool := JBool (b : bool) | JUndefined.

Definition truthy_jsbool (j : jsbool) : bool :=
  match j with JBool b => b | JUndefined => false end.

#[global] Instance kind_eq_dec : EqDecision kind.
Proof. solve_decision. Defined.
#[global] Instance value_eq_dec : EqDecision value.
Proof. solve_decision. Defined.
#[global] Instance jsprop_eq_dec : EqDecision jsprop.
Proof. solve_decision. Defined.

(** ** The record state machine (DS.RootState) *)

Inductive state :=
| root_empty
| root_loading
| loaded_saved
| created_uncommitted | created_inFlight | created_invalid
| updated_uncommitted | updated_inFlight | updated_invalid
| deleted_uncommitted | deleted_saved | deleted_inFlight | deleted_invalid.

#[global] Instance state_eq_dec : EqDecision state.
Proof. solve_decision. Defined.

(** The [isDirty] flag of a state; [hasDirtyAttributes] of a record reads it
    from the current state. *)
Definition state_isDirty (s : state) : bool :=
  match s with
  | root_empty | root_loading | loaded_saved | deleted_saved => false
  | _ => true
  end.


(** ** Internal models and the store *)

Record relationshipMeta := {
  meta_kind : kind;
  meta_dependent : bool
}.

Record internalModel := {
  _attributes : list string;
  _dependentRelationships : option (list (string * value));
  currentState : state;
  relationshipsByName : list (string * relationshipMeta);
  properties : list (string * jsprop)
}.

Abbreviation store := (gmap ident internalModel).

(** Dictionary access on association lists. *)
Fixpoint assoc {A} (k : string) (o : list (string * A)) : option A :=
  match o with
  | [] => None
  | (k', v) :: o' => if String.eqb k k' then Some v else assoc k o'
  end.

(** [o[k] = v]: overwrite in place, or append a new key. *)
Fixpoint assign {A} (k : string) (v : A) (o : list (string * A))
  : list (string * A) :=
  match o with
  | [] => [(k, v)]
  | (k', v') :: o' =>
      if String.eqb k k' then (k, v) :: o' else (k', v') :: assign k v o'
  end.

Definition keys {A} (o : list (string * A)) : list string := map fst o.

(** [get(record, name)]; a property never set reads as [undefined]. *)
Definition get_prop (im : internalModel) (name : string) : jsprop :=
  match assoc name (properties im) with
  | Some p => p
  | None => Plain VUndefined
  end.

(** [dependentRelations[name]]. *)
Definition snapshot_entry (o : list (string * value)) (name : string) : value :=
  match assoc name o with
  | Some v => v
  | None => VUndefined
  end.

(** [get(r, 'hasDirtyAttributes')] on a record of the store. *)
Definition hasDirtyAttributes (st : store) (r : ident) : bool :=
  match st !! r with
  | Some im => state_isDirty (currentState im)
  | None => false
  end.

(** ** Ember helpers *)

Definition array_content (v : value) : list ident :=
  match v with VArray rs => rs | _ => [] end.

(** [Ember.isArray]. *)
Definition isArray (p : jsprop) : bool :=
  match p with
  | Plain (VArray _) => true
  | PromiseManyArray _ _ => true
  | _ => false
  end.

(** [p.toArray()]: arrays, many-arrays and their promise proxies have the
    method; [null], [undefined], a model instance and a [DS.PromiseObject]
    do not, and the call is a [TypeError]. *)
Definition toArray (p : jsprop) : outcome (list ident) :=
  match p with
  | Plain (VArray rs) => Ret rs
  | PromiseManyArray rs _ => Ret rs
  | _ => Throw
  end.

(** JavaScript truthiness of what [get] returned. *)
Definition truthy (p : jsprop) : bool :=
  match p with
  | Plain VUndefined | Plain VNull => false
  | _ => true
  end.

Definition spaceship (a b : nat) : Z :=
  match Nat.compare a b with Lt => (-1)%Z | Eq => 0%Z | Gt => 1%Z end.

(** Position of a value's type in [Ember.compare]'s type order. *)
Definition type_order (v : value) : nat :=
  match v with
  | VUndefined => 0
  | VNull => 1
  | VArray _ => 5
  | VRecord _ => 7
  end.

(** The [compare] method the source adds to [DS.Model]
    (lines 253-255): [r1 === r2 ? 0 : 1]. *)
Definition compare (r1 r2 : ident) : Z :=
  if decide (r1 = r2) then 0%Z else 1%Z.

(** The array case of [Ember.compare]: the first pair of elements that
    compares non-zero decides, then the lengths. *)
Fixpoint compare_arrays (v w : list ident) : Z :=
  match v, w with
  | a :: v', b :: w' =>
      if decide (compare a b = 0%Z) then compare_arrays v' w' else compare a b
  | [], [] => 0%Z
  | [], _ :: _ => (-1)%Z
  | _ :: _, [] => 1%Z
  end.

(** [Ember.compare(v, w)] on the values that occur here. *)
Definition Ember_compare (v w : value) : Z :=
  match v, w with
  | VRecord a, VRecord b => compare a b
  | VArray a, VArray b => compare_arrays a b
  | _, _ => spaceship (type_order v) (type_order w)
  end.

(** [sortBy('id')]: a record's id is its identity in the store. *)
Definition sortBy_id (rs : list ident) : list ident := merge_sort (≤)%nat rs.

(** ** State machine handlers (lines 62-127) *)

(** Object/array agnostic [hasDirtyAttributes] check (lines 67-69).  On a
    promise proxy of a belongsTo, [get] forwards to the content; [get] on
    [null] is [undefined]. *)
Definition isRelatedRecordDirty (st : store) (p : jsprop) : jsbool :=
  match p with
  | Plain (VArray rs) | PromiseManyArray rs _ =>
      JBool (existsb (hasDirtyAttributes st) rs)
  | Plain (VRecord r) | PromiseObject (VRecord r) _ =>
      JBool (hasDirtyAttributes st r)
  | _ => JUndefined
  end.

(** Original-state aware dirty check (lines 72-77). *)
Definition isRelationshipDirty (im : internalModel) (key : string)
  : outcome bool :=
  let! value := toArray (get_prop im key) in
  match _dependentRelationships im with
  | None => Throw
  | Some o =>
      Ret (negb (Z.eqb (Ember_compare (VArray value) (snapshot_entry o key)) 0))
  end.

(** [Ember.A(ks).any(f)] for a callback that may throw: the first truthy
    answer, or the first exception, ends the iteration. *)
Fixpoint any_key (f : string -> outcome bool) (ks : list string)
  : outcome bool :=
  match ks with
  | [] => Ret false
  | k :: ks' => let! b := f k in if b then Ret true else any_key f ks'
  end.

(** The new de facto check to determine if a record is dirty
    (lines 80-92). *)
Definition isRecordDirty (st : store) (im : internalModel) : outcome jsbool :=
  if negb (Nat.eqb (length (_attributes im)) 0) then Ret (JBool true)
  else
    match _dependentRelationships im with
    | Some o =>
        let! b := any_key (fun key =>
                    let! d := isRelationshipDirty im key in
                    if d then Ret true
                    else Ret (truthy_jsbool
                                (isRelatedRecordDirty st (get_prop im key))))
                  (keys o) in
        Ret (JBool b)
    | None => Ret JUndefined
    end.

(** ** Events, the world and the framework *)

(** The context object the observer passes with
    [dependentRelationshipDidChange] (lines 225-229). *)
Record context := {
  ctx_name : string;
  ctx_value : jsprop;
  ctx_originalValue : value
}.

Inductive event :=
| becomeDirty
| propertyWasReset
| rolledBack
| dependentRelationshipDidChange (c : context).

(** A [then] callback registered by [snapshotDependentRelations]
    (lines 241-244) and not yet run: the closure's [name] and
    [relationshipMeta.kind], and the object handed to [Ember.RSVP.all]. *)
Record job := {
  job_record : ident;
  job_name : string;
  job_kind : kind;
  job_relationship : jsprop
}.

(** The store, the messages passed to [send] so far (oldest first), and the
    promise callbacks waiting for their turn. *)
Record world := {
  recs : store;
  sent : list (ident * event);
  pending : list job
}.

Definition set_recs (w : world) (s : store) : world :=
  {| recs := s; sent := sent w; pending := pending w |}.

Definition record_sent (w : world) (id : ident) (ev : event) : world :=
  {| recs := recs w; sent := sent w ++ [(id, ev)]; pending := pending w |}.

Definition add_pending (w : world) (j : job) : world :=
  {| recs := recs w; sent := sent w; pending := pending w ++ [j] |}.

(** Ember Data itself is not part of this package.  What the package calls
    into is an interface: the handlers Ember Data's states define for the
    events the package does not override, and the methods the package
    decorates or calls. *)
Record framework := {
  fw_handle : ident -> event -> world -> outcome world;
  fw_adapterDidDirty : ident -> world -> outcome world;
  fw_adapterDidCommit : ident -> world -> outcome world;
  fw_rollbackAttributes : ident -> world -> outcome world
}.

(** [Ember.compare(value, originalValue)] where [value] is what the observer
    read: a promise proxy is an instance that is not [Ember.Comparable]. *)
Definition Ember_compare_prop (p : jsprop) (w : value) : Z :=
  match p with
  | Plain v => Ember_compare v w
  | PromiseManyArray rs _ => Ember_compare (VArray rs) w
  | PromiseObject _ _ =>
      match w with
      | VRecord _ => 0%Z
      | _ => spaceship 7 (type_order w)
      end
  end.

Definition with_model {A} (w : world) (id : ident)
  (k : internalModel -> outcome A) : outcome A :=
  match recs w !! id with
  | Some im => k im
  | None => Throw
  end.

Section StateMachine.
Variable fw : framework.

(** [internalModel.send(ev)] for an event whose handler in the current
    state is Ember Data's own. *)
Definition send_framework (id : ident) (ev : event) (w : world)
  : outcome world :=
  fw_handle fw id ev (record_sent w id ev).

(** The check for whether the record is still dirty now has to account
    for dependent relations (lines 116-120). *)
Definition propertyWasReset_handler (id : ident) (w : world)
  : outcome world :=
  with_model w id (fun im =>
    let! d := isRecordDirty (recs w) im in
    if truthy_jsbool d then Ret w else send_framework id rolledBack w).

(** [send('propertyWasReset')]: lines 145-146 replace the handler of the
    two uncommitted states. *)
Definition send_propertyWasReset (id : ident) (w : world) : outcome world :=
  with_model w id (fun im =>
    match currentState im with
    | created_uncommitted | updated_uncommitted =>
        propertyWasReset_handler id (record_sent w id propertyWasReset)
    | _ => send_framework id propertyWasReset w
    end).

(** Lines 99-113. *)
Definition compareRelation (id : ident) (c : context)
  (v : jsprop) (originalValue : value) (w : world) : outcome world :=
  if negb (Z.eqb (Ember_compare_prop v originalValue) 0)
     || truthy_jsbool (isRelatedRecordDirty (recs w) (ctx_value c))
  then send_framework id becomeDirty w
  else send_propertyWasReset id w.

Definition dependentRelationshipDidChange_handler (id : ident) (c : context)
  (w : world) : outcome world :=
  if isArray (ctx_value c) && isArray (Plain (ctx_originalValue c)) then
    let! v := toArray (ctx_value c) in
    compareRelation id c (Plain (VArray (sortBy_id v)))
      (VArray (sortBy_id (array_content (ctx_originalValue c)))) w
  else compareRelation id c (ctx_value c) (ctx_originalValue c) w.

(** Check to see if the saved record is dirty (lines 123-127); installed
    as the [setup] of [loaded.saved] (line 150). *)
Definition savedSetup (id : ident) (w : world) : outcome world :=
  with_model w id (fun im =>
    let! d := isRecordDirty (recs w) im in
    if truthy_jsbool d then fw_adapterDidDirty fw id w else Ret w).

(** [send('dependentRelationshipDidChange', c)] (lines 135-142).  State
    objects inherit from their parent state, so the handler put on
    [loaded] serves [saved] and the uncommitted states, and the [Ember.K]
    put on [deleted] serves all its substates. *)
Definition send_dependentRelationshipDidChange (id : ident) (c : context)
  (w : world) : outcome world :=
  with_model w id (fun im =>
    let w' := record_sent w id (dependentRelationshipDidChange c) in
    match currentState im with
    | created_inFlight | updated_inFlight
    | created_invalid | updated_invalid
    | deleted_uncommitted | deleted_saved
    | deleted_inFlight | deleted_invalid => Ret w'
    | loaded_saved | created_uncommitted | updated_uncommitted =>
        dependentRelationshipDidChange_handler id c w'
    | root_empty | root_loading =>
        fw_handle fw id (dependentRelationshipDidChange c) w'
    end).

Definition send (id : ident) (ev : event) (w : world) : outcome world :=
  match ev with
  | dependentRelationshipDidChange c =>
      send_dependentRelationshipDidChange id c w
  | propertyWasReset => send_propertyWasReset id w
  | _ => send_framework id ev w
  end.
End StateMachine.

(** ** DS.Model extensions (lines 157-256) *)

(** [eachDependentRelationship(callback)] (lines 159-172): the callback sees
    the dependent relationships, in declaration order. *)
Fixpoint eachDependentRelationship {S : Type}
  (rels : list (string * relationshipMeta))
  (callback : string -> relationshipMeta -> S -> outcome S) (s : S)
  : outcome S :=
  match rels with
  | [] => Ret s
  | (name, m) :: rest =>
      if meta_dependent m then
        let! s' := callback name m s in
        eachDependentRelationship rest callback s'
      else eachDependentRelationship rest callback s
  end.

(** Lines 43-45: give the internal model an empty hash if it has none. *)
Definition ensure_hash (im : internalModel) : internalModel :=
  match _dependentRelationships im with
  | Some _ => im
  | None =>
      {| _attributes := _attributes im;
         _dependentRelationships := Some [];
         currentState := currentState im;
         relationshipsByName := relationshipsByName im;
         properties := properties im |}
  end.

Definition hash_of (im : internalModel) : list (string * value) :=
  match _dependentRelationships im with Some o => o | None => [] end.

(** [internalModelFor(record)] (lines 38-48). *)
Definition internalModelFor (id : ident) (w : world)
  : outcome (world * internalModel) :=
  with_model w id (fun im =>
    Ret (set_recs w (<[id := ensure_hash im]> (recs w)), ensure_hash im)).

(** [key.split('.')[0]]. *)
Fixpoint first_segment (key : string) : string :=
  match key with
  | EmptyString => EmptyString
  | String c rest =>
      if Ascii.eqb c "."%char then EmptyString
      else String c (first_segment rest)
  end.

(** One entry of the object [changedRelationships] returns: the snapshot,
    of which [Ember.copy] makes a copy with the same elements, and the
    current value. *)
Definition change := (value * jsprop)%type.

(** Lines 192-210. *)
Definition changedRelationships (id : ident) (w : world)
  : outcome (world * list (string * change)) :=
  let! wi := internalModelFor id w in
  let w1 := fst wi in
  let im := snd wi in
  let dependentRelations := hash_of im in
  let! changed :=
    eachDependentRelationship (relationshipsByName im)
      (fun name relationshipMeta changed =>
         let relationship := get_prop im name in
         if truthy relationship then
           let! d := isRelationshipDirty im name in
           if d then
             match meta_kind relationshipMeta with
             | belongsTo =>
                 Ret (assign name
                        (snapshot_entry dependentRelations name, relationship)
                        changed)
             | hasMany =>
                 let! a := toArray relationship in
                 Ret (assign name
                        (snapshot_entry dependentRelations name,
                         Plain (VArray a))
                        changed)
             end
           else Ret changed
         else Ret changed)
      [] in
  Ret (w1, changed).

(** When the record is loaded/saved, save its relations so they can be
    reverted (lines 234-250).  Each [then] callback is queued; the method
    itself only reads [hasDirtyAttributes] afterwards and returns. *)
Definition snapshotDependentRelations (id : ident) (w : world)
  : outcome world :=
  let! wi := internalModelFor id w in
  let im := snd wi in
  eachDependentRelationship (relationshipsByName im)
    (fun name relationshipMeta w' =>
       let relationship := get_prop im name in
       if truthy relationship then
         Ret (add_pending w'
                {| job_record := id; job_name := name;
                   job_kind := meta_kind relationshipMeta;
                   job_relationship := relationship |})
       else Ret w')
    (fst wi).

Definition set_hash (im : internalModel) (o : list (string * value))
  : internalModel :=
  {| _attributes := _attributes im;
     _dependentRelationships := Some o;
     currentState := currentState im;
     relationshipsByName := relationshipsByName im;
     properties := properties im |}.

Definition write_snapshot (id : ident) (name : string) (v : value) (w : world)
  : world :=
  match recs w !! id with
  | Some im =>
      set_recs w (<[id := set_hash im (assign name v (hash_of im))]> (recs w))
  | None => w
  end.

(** The promise of [Ember.RSVP.all([relationship])] settles and its [then]
    callback (lines 241-244) runs, or does not: a rejected promise calls no
    fulfilment callback, and an exception inside the callback rejects the
    promise [then] returned, which nobody holds.  A many-array is handed
    over by reference, so [toArray] sees its contents at this moment. *)
Definition settle (p : jsprop) : option value :=
  match p with
  | Plain v | PromiseObject v true => Some v
  | PromiseManyArray rs true => Some (VArray rs)
  | PromiseObject _ false | PromiseManyArray _ false => None
  end.

Definition run_job (j : job) (w : world) : world :=
  match settle (job_relationship j) with
  | None => w
  | Some v =>
      match job_kind j with
      | belongsTo => write_snapshot (job_record j) (job_name j) v w
      | hasMany =>
          match v, recs w !! job_record j with
          | VArray _, Some im =>
              match toArray (get_prop im (job_name j)) with
              | Ret a => write_snapshot (job_record j) (job_name j) (VArray a) w
              | Throw => w
              end
          | _, _ => w
          end
      end
  end.

(** The run loop drains the queue of promise callbacks. *)
Definition run_jobs (js : list job) (w : world) : world :=
  foldl (fun acc j => run_job j acc) w js.

Definition flush (w : world) : world :=
  let w' := run_jobs (pending w) w in
  {| recs := recs w'; sent := sent w'; pending := [] |}.

Definition set_property (im : internalModel) (name : string) (p : jsprop)
  : internalModel :=
  {| _attributes := _attributes im;
     _dependentRelationships := _dependentRelationships im;
     currentState := currentState im;
     relationshipsByName := relationshipsByName im;
     properties := assign name p (properties im) |}.

(** [Ember.makeArray]. *)
Definition makeArray (v : value) : list ident :=
  match v with
  | VUndefined | VNull => []
  | VRecord r => [r]
  | VArray rs => rs
  end.

Section Model.
Variable fw : framework.

(** Observer for relationship change (lines 213-231). *)
Definition dependentRelationshipDidChange_observer (id : ident)
  (key : string) (w : world) : outcome world :=
  let! wi := internalModelFor id w in
  let w1 := fst wi in
  let im := snd wi in
  let dependentRelations := hash_of im in
  let name := first_segment key in
  match assoc name dependentRelations with
  | Some originalValue =>
      let p := get_prop im name in
      let! v := (if isArray p then
                   let! a := toArray p in Ret (Plain (VArray a))
                 else Ret p) in
      send fw id
        (dependentRelationshipDidChange
           {| ctx_name := name; ctx_value := v;
              ctx_originalValue := originalValue |}) w1
  | None => Ret w1
  end.

(** The decorated [adapterDidCommit] (lines 268-280): the original
    method, then the snapshot, then the manual notification of the hasMany
    relationships. *)
Definition adapterDidCommit (id : ident) (w : world) : outcome world :=
  let! w0 := fw_adapterDidCommit fw id w in
  let! w1 := snapshotDependentRelations id w0 in
  with_model w1 id (fun im =>
    eachDependentRelationship (relationshipsByName im)
      (fun name relationship w' =>
         match meta_kind relationship with
         | hasMany => dependentRelationshipDidChange_observer id name w'
         | belongsTo => Ret w'
         end)
      w1).



(** [set(record, name, v)] on a dependent belongsTo: the property is
    written and the observer installed by [didDefineProperty]
    (lines 181-187) runs. *)
Definition set_belongsTo (id : ident) (name : string) (v : value)
  (w : world) : outcome world :=
  with_model w id (fun im =>
    dependentRelationshipDidChange_observer id
      (name ++ ".hasDirtyAttributes")
      (set_recs w (<[id := set_property im name (Plain v)]> (recs w)))).

(** [get(record, name).setObjects(v)]: the many-array keeps its identity
    and takes the contents of [v]; something that is not a many-array has
    no such method, and [v] has to be an array. *)
Definition setObjects (id : ident) (name : string) (v : value)
  (w : world) : outcome world :=
  with_model w id (fun im =>
    match v with
    | VArray rs =>
        let! p := (match get_prop im name with
                   | Plain (VArray _) => Ret (Plain (VArray rs))
                   | PromiseManyArray _ f => Ret (PromiseManyArray rs f)
                   | _ => Throw
                   end) in
        dependentRelationshipDidChange_observer id
          (name ++ ".@each.hasDirtyAttributes")
          (set_recs w (<[id := set_property im name p]> (recs w)))
    | _ => Throw
    end).

(** [records.invoke('rollbackAttributes')], for a method that may run out
    of fuel ([None]). *)
Fixpoint invoke (method : ident -> world -> option (outcome world))
  (rs : list ident) (w : world) : option (outcome world) :=
  match rs with
  | [] => Some (Ret w)
  | r :: rs' =>
      match method r w with
      | Some (Ret w') => invoke method rs' w'
      | other => other
      end
  end.

(** The callback of lines 291-304 for one dependent relationship. *)
Definition rollbackRelationship
  (method : ident -> world -> option (outcome world))
  (id : ident) (name : string) (relationshipMeta : relationshipMeta)
  (w : world) : option (outcome world) :=
  match recs w !! id with
  | None => Some Throw
  | Some im =>
      match _dependentRelationships im with
      | None => Some Throw
      | Some dependentRelations =>
          match assoc name dependentRelations with
          | None => Some (Ret w)
          | Some originalRelationship =>
              match
                (match meta_kind relationshipMeta with
                 | belongsTo => set_belongsTo id name originalRelationship w
                 | hasMany => setObjects id name originalRelationship w
                 end)
              with
              | Throw => Some Throw
              | Ret w1 =>
                  invoke method
                    (filter (fun r => hasDirtyAttributes (recs w1) r = true)
                       (makeArray originalRelationship))
                    w1
              end
          end
      end
  end.

Fixpoint eachRollback (method : ident -> world -> option (outcome world))
  (id : ident) (rels : list (string * relationshipMeta)) (w : world)
  : option (outcome world) :=
  match rels with
  | [] => Some (Ret w)
  | (name, m) :: rest =>
      if meta_dependent m then
        match rollbackRelationship method id name m w with
        | Some (Ret w') => eachRollback method id rest w'
        | other => other
        end
      else eachRollback method id rest w
  end.

(** The decorated [rollbackAttributes] (lines 286-305): the original
    method, then every dependent relationship with a snapshot is put back
    and the dirty records of the snapshot are rolled back through the same
    decorated method.  [fuel] bounds the depth of that recursion; running
    out of it is [None]. *)
Fixpoint rollbackAttributes (fuel : nat) (id : ident) (w : world)
  : option (outcome world) :=
  match fuel with
  | 0 => None
  | S fuel' =>
      match fw_rollbackAttributes fw id w with
      | Throw => Some Throw
      | Ret w0 =>
          match recs w0 !! id with
          | None => Some Throw
          | Some im =>
              eachRollback (rollbackAttributes fuel') id
                (relationshipsByName im) w0
          end
      end
  end.
End Model.

(** ** Ember Data's side of the interface

    A model of the part of Ember Data 1.13 the package talks to, used to run
    the package on concrete stores.  Entering a state writes [currentState];
    the observers of lines 181-187 then run on every record that holds the
    record through a dependent relationship; entering [loaded.saved] runs
    [savedSetup] (line 150).  [fuel] bounds the nesting of handlers and
    observers; with none left the call fails. *)

Definition set_state (im : internalModel) (s : state) : internalModel :=
  {| _attributes := _attributes im;
     _dependentRelationships := _dependentRelationships im;
     currentState := s;
     relationshipsByName := relationshipsByName im;
     properties := properties im |}.

Definition clear_attributes (im : internalModel) : internalModel :=
  {| _attributes := [];
     _dependentRelationships := _dependentRelationships im;
     currentState := currentState im;
     relationshipsByName := relationshipsByName im;
     properties := properties im |}.

(** The records a relationship property currently holds. *)
Definition held (p : jsprop) : list ident :=
  match p with
  | Plain (VRecord r) | PromiseObject (VRecord r) _ => [r]
  | Plain (VArray rs) | PromiseManyArray rs _ => rs
  | _ => []
  end.

(** The observer keys (lines 183 and 185) under which [r]'s
    [hasDirtyAttributes] is watched. *)
Definition watchers (st : store) (r : ident) : list (ident * string) :=
  flat_map
    (fun '(p, im) =>
       flat_map
         (fun '(name, m) =>
            if meta_dependent m && bool_decide (r ∈ held (get_prop im name))
            then [(p, match meta_kind m with
                      | belongsTo => name ++ ".hasDirtyAttributes"
                      | hasMany => name ++ ".@each.hasDirtyAttributes"
                      end)]
            else [])
         (relationshipsByName im))
    (map_to_list st).

Fixpoint notify (fw : framework) (ws : list (ident * string)) (w : world)
  : outcome world :=
  match ws with
  | [] => Ret w
  | (p, key) :: ws' =>
      let! w' := dependentRelationshipDidChange_observer fw p key w in
      notify fw ws' w'
  end.

Definition transitionTo (fw : framework) (id : ident) (s : state) (w : world)
  : outcome world :=
  with_model w id (fun im =>
    let w1 := set_recs w (<[id := set_state im s]> (recs w)) in
    let! w2 := notify fw (watchers (recs w1) id) w1 in
    if decide (s = loaded_saved) then savedSetup fw id w2 else Ret w2).

Definition EmberData_handle (fw : framework) (id : ident) (ev : event)
  (w : world) : outcome world :=
  match ev with
  | becomeDirty =>
      with_model w id (fun im =>
        match currentState im with
        | loaded_saved => transitionTo fw id updated_uncommitted w
        | root_empty | root_loading => Throw
        | _ => Ret w
        end)
  | rolledBack =>
      with_model w id (fun im =>
        match currentState im with
        | created_uncommitted => transitionTo fw id deleted_saved w
        | updated_uncommitted | created_invalid | updated_invalid
        | deleted_uncommitted => transitionTo fw id loaded_saved w
        | _ => Ret w
        end)
  | propertyWasReset => Ret w
  | dependentRelationshipDidChange _ => Throw
  end.

Fixpoint EmberData (fuel : nat) : framework :=
  match fuel with
  | 0 =>
      {| fw_handle := fun _ _ _ => Throw;
         fw_adapterDidDirty := fun _ _ => Throw;
         fw_adapterDidCommit := fun _ _ => Throw;
         fw_rollbackAttributes := fun _ _ => Throw |}
  | S fuel' =>
      let fw := EmberData fuel' in
      {| fw_handle := EmberData_handle fw;
         fw_adapterDidDirty := fun id w => EmberData_handle fw id becomeDirty w;
         fw_adapterDidCommit := fun id w =>
           with_model w id (fun im =>
             match currentState im with
             | created_inFlight | updated_inFlight =>
                 transitionTo fw id loaded_saved w
             | deleted_inFlight => transitionTo fw id deleted_saved w
             | _ => Throw
             end);
         fw_rollbackAttributes := fun id w =>
           with_model w id (fun im =>
             EmberData_handle fw id rolledBack
               (set_recs w (<[id := clear_attributes im]> (recs w)))) |}
  end.

(** [snapshotOf(entity, relationshipName)]: the stored baseline, or absent. *)
Definition snapshotOf (w : world) (id : ident) (name : string)
  : option value :=
  match recs w !! id with
  | Some im => assoc name (hash_of im)
  | None => None
  end.

(** The callbacks one call of [snapshotDependentRelations] queues. *)
Definition snapshot_jobs (id : ident) (im : internalModel)
  (rels : list (string * relationshipMeta)) : list job :=
  flat_map
    (fun '(name, m) =>
       if meta_dependent m && truthy (get_prop im name)
       then [{| job_record := id; job_name := name; job_kind := meta_kind m;
                job_relationship := get_prop im name |}]
       else [])
    rels.

(** The value a relationship resolves to. *)
Definition prop_value (p : jsprop) : value :=
  match p with
  | Plain v | PromiseObject v _ => v
  | PromiseManyArray rs _ => VArray rs
  end.

(** The resolved value of a relationship is [null] or [undefined]. *)
Definition resolved_empty (p : jsprop) : bool :=
  match prop_value p with
  | VNull | VUndefined => true
  | _ => false
  end.

(** The object [changedRelationships] returns, without the world. *)
Definition changes_of (id : ident) (w : world)
  : outcome (list (string * change)) :=
  let! r := changedRelationships id w in Ret (snd r).

(** ** The dirtiness rule in the words of the specification

    An entity is dirty iff it has own-field dirtiness, or a dependent
    relationship's current value differs from its snapshot, or an entity
    currently held through a dependent relationship is dirty. *)


(** ** Clean records

    A relationship that is at its snapshot: the property holds the value
    of the snapshot, or the promise proxy of a many-array with the contents
    of the snapshot. *)
Definition at_snapshot (im : internalModel) (name : string) (orig : value)
  : Prop :=
  assoc name (properties im) = Some (Plain orig)
  ∨ ∃ l f, assoc name (properties im) = Some (PromiseManyArray l f)
           ∧ orig = VArray l.

(** A record with nothing to roll back: no pending attribute, and under
    every key of its snapshot hash the relationship is at its snapshot and
    holds no dirty record. *)
Definition clean_record (st : store) (im : internalModel) : Prop :=
  _attributes im = []
  ∧ ∃ o, _dependentRelationships im = Some o
         ∧ ∀ name orig,
             assoc name o = Some orig →
             at_snapshot im name orig
             ∧ existsb (hasDirtyAttributes st) (held (get_prop im name))
               = false.


(** ** Example stores *)

Module Examples.
Definition children_meta : list (string * relationshipMeta) :=
  [("children", {| meta_kind := hasMany; meta_dependent := true |})].

Definition brewery_meta : list (string * relationshipMeta) :=
  [("brewery", {| meta_kind := belongsTo; meta_dependent := true |})].

(** A [Thing] with the dependent collection [children]. *)
Definition thing (s : state) (attrs : list string)
  (snapshot : option (list (string * value))) (children : list ident)
  : internalModel :=
  {| _attributes := attrs;
     _dependentRelationships := snapshot;
     currentState := s;
     relationshipsByName := children_meta;
     properties := [("children", Plain (VArray children))] |}.

(** A [Beer] whose [brewery] is a dependent single reference. *)
Definition beer (s : state) (snapshot : option (list (string * value)))
  (brewery : value) : internalModel :=
  {| _attributes := [];
     _dependentRelationships := snapshot;
     currentState := s;
     relationshipsByName := brewery_meta;
     properties := [("brewery", Plain brewery)] |}.

Definition world_of (st : store) : world :=
  {| recs := st; sent := []; pending := [] |}.

(** A clean parent that holds a dirty child but has no snapshot entry
    yet. *)
Definition unsnapshotted : store :=
  <[1 := thing loaded_saved [] (Some []) [2]]>
    (<[2 := thing updated_uncommitted ["name"] (Some []) []]> ∅).

Definition leaf (s : state) (attrs : list string) : internalModel :=
  thing s attrs (Some [("children", VArray [])]) [].

(** A saved parent whose collection holds the records of its snapshot in
    another order; both children are clean. *)
Definition reordered_thing : internalModel :=
  thing loaded_saved [] (Some [("children", VArray [2; 3])]) [3; 2].

Definition reordered : store :=
  <[1 := reordered_thing]>
    (<[2 := leaf loaded_saved []]> (<[3 := leaf loaded_saved []]> ∅)).

(** A saved beer whose brewery is the brewery of its snapshot. *)
Definition settled_beer : internalModel :=
  beer loaded_saved (Some [("brewery", VRecord 2)]) (VRecord 2).

Definition brewed : store :=
  <[1 := settled_beer]> (<[2 := leaf loaded_saved []]> ∅).

(** A parent with a commit in flight that has gained the child [3] since
    its snapshot. *)
Definition inflight_thing : internalModel :=
  thing updated_inFlight [] (Some [("children", VArray [2])]) [2; 3].

Definition inflight : store :=
  <[1 := inflight_thing]>
    (<[2 := leaf loaded_saved []]> (<[3 := leaf loaded_saved []]> ∅)).

Definition children_changed : context :=
  {| ctx_name := "children"; ctx_value := Plain (VArray [2; 3]);
     ctx_originalValue := VArray [2] |}.

(** A beer whose brewery was cleared after the snapshot. *)
Definition orphan_beer : internalModel :=
  beer updated_uncommitted (Some [("brewery", VRecord 2)]) VNull.

Definition orphaned : store :=
  <[1 := orphan_beer]> (<[2 := leaf loaded_saved []]> ∅).

(** A beer with the snapshot brewery [2] whose brewery is now a promise
    that rejects. *)
Definition unresolved_beer : internalModel :=
  {| _attributes := [];
     _dependentRelationships := Some [("brewery", VRecord 2)];
     currentState := loaded_saved;
     relationshipsByName := brewery_meta;
     properties := [("brewery", PromiseObject VNull false)] |}.

Definition unresolved : store :=
  <[1 := unresolved_beer]> (<[2 := leaf loaded_saved []]> ∅).



(** The scenario of the specification: a [Thing] with one child, loaded and
    snapshotted; then the child's name is set. *)
Definition settled : store :=
  <[1 := thing loaded_saved [] (Some [("children", VArray [2])]) [2]]>
    (<[2 := leaf loaded_saved []]> ∅).

Definition child_renamed : store :=
  <[1 := thing updated_uncommitted [] (Some [("children", VArray [2])]) [2]]>
    (<[2 := leaf updated_uncommitted ["name"]]> ∅).



(** A beer moved from brewery [2] to brewery [3] since its snapshot. *)
Definition moved_beer : internalModel :=
  beer updated_uncommitted (Some [("brewery", VRecord 2)]) (VRecord 3).

Definition moved : store :=
  <[1 := moved_beer]>
    (<[2 := leaf loaded_saved []]> (<[3 := leaf loaded_saved []]> ∅)).

(** Three generations: the grandchild [3] has a changed name, which makes
    the child [2] and the parent [1] dirty. *)
Definition grandchild_renamed : store :=
  <[1 := thing updated_uncommitted [] (Some [("children", VArray [2])]) [2]]>
    (<[2 := thing updated_uncommitted []
              (Some [("children", VArray [3])]) [3]]>
       (<[3 := leaf updated_uncommitted ["name"]]> ∅)).

Definition generations : store :=
  <[1 := thing loaded_saved [] (Some [("children", VArray [2])]) [2]]>
    (<[2 := thing loaded_saved [] (Some [("children", VArray [3])]) [3]]>
       (<[3 := leaf loaded_saved []]> ∅)).
End Examples.

(** ** Installing the observers (lines 175-189) *)

(** What [didDefineProperty] is handed as the value of a property: something
    that is not a descriptor, a descriptor whose meta is not a relationship,
    or the descriptor of a relationship. *)
Inductive descriptor :=
| NotDescriptor
| AttributeDescriptor
| RelationshipDescriptor (meta : relationshipMeta).

(** The observer paths [didDefineProperty] adds for the property [key];
    each of them calls the method [dependentRelationshipDidChange]. *)
Definition didDefineProperty (key : string) (d : descriptor) : list string :=
  match d with
  | RelationshipDescriptor meta =>
      if meta_dependent meta then
        match meta_kind meta with
        | belongsTo => [key ++ ".hasDirtyAttributes"]
        | hasMany => [key ++ ".@each.hasDirtyAttributes"]
        end
      else []
  | _ => []
  end.

(** A property name without a dot. *)
Fixpoint dotless (key : string) : bool :=
  match key with
  | EmptyString => true
  | String c rest => negb (Ascii.eqb c "."%char) && dotless rest
  end.

(** ** The capture with its callbacks run

    [snapshotDependentRelations], and then the turn of the run loop in which
    the queued callbacks run. *)
Definition snapshotSettled (id : ident) (w : world) : outcome world :=
  let! w1 := snapshotDependentRelations id w in Ret (flush w1).

(** ** The application (src/app/models/beer.js)

    [name: DS.attr('string')] and [brewery: DS.belongsTo('brewery')]: the one
    relationship of a beer is not dependent. *)
Module App.
Definition Beer_relationshipsByName : list (string * relationshipMeta) :=
  [("brewery", {| meta_kind := belongsTo; meta_dependent := false |})].

Definition Beer (s : state) (attrs : list string) (brewery : value)
  : internalModel :=
  {| _attributes := attrs;
     _dependentRelationships := None;
     currentState := s;
     relationshipsByName := Beer_relationshipsByName;
     properties := [("brewery", Plain brewery)] |}.

(** A beer with a changed name, and its brewery. *)
Definition cellar : store :=
  <[1 := Beer updated_uncommitted ["name"] (VRecord 2)]>
    (<[2 := Examples.leaf loaded_saved []]> ∅).
End App.

(** * Properties *)

(** ** Comparison *)

Lemma compare_refl (r : ident) : compare r r = 0%Z.
Proof. unfold compare. by rewrite decide_True. Qed.

Lemma compare_0 (a b : ident) : compare a b = 0%Z ↔ a = b.
Proof. unfold compare. case_decide; split; intros; done. Qed.

Lemma compare_arrays_0 (v w : list ident) :
  compare_arrays v w = 0%Z ↔ v = w.
Proof.
  revert w. induction v as [|a v IH]; intros [|b w]; simpl; try done.
  case_decide as Hab.
  - apply compare_0 in Hab as ->. rewrite IH. split; congruence.
  - split; [done|]. intros [= -> ->]. by rewrite compare_refl in Hab.
Qed.

Lemma Ember_compare_array_0 (a : list ident) (w : value) :
  Ember_compare (VArray a) w = 0%Z ↔ w = VArray a.
Proof.
  destruct w; simpl; try (split; [by vm_compute|done]).
  rewrite compare_arrays_0. split; congruence.
Qed.

Lemma toArray_held (p : jsprop) :
  isArray p = true → toArray p = Ret (held p) ∧ prop_value p = VArray (held p).
Proof. destruct p as [[]| |]; simpl; done. Qed.

Lemma toArray_not_array (p : jsprop) : isArray p = false → toArray p = Throw.
Proof. destruct p as [[]| |]; simpl; done. Qed.

(** ** The dirty evaluator *)

Lemma any_key_existsb (f : string → outcome bool) (g : string → bool)
    (ks : list string) :
  (∀ k, k ∈ ks → f k = Ret (g k)) → any_key f ks = Ret (existsb g ks).
Proof.
  induction ks as [|k ks IH]; intros Hf; simpl; [done|].
  rewrite Hf by left. simpl. destruct (g k); [done|].
  apply IH. intros k' Hk'. apply Hf. by right.
Qed.

Lemma isRelatedRecordDirty_held (st : store) (p : jsprop) :
  truthy_jsbool (isRelatedRecordDirty st p) = true
  ↔ ∃ r, r ∈ held p ∧ hasDirtyAttributes st r = true.
Proof.
  assert (Hex : ∀ rs, existsb (hasDirtyAttributes st) rs = true
                      ↔ ∃ r, r ∈ rs ∧ hasDirtyAttributes st r = true).
  { intros rs. rewrite existsb_exists. setoid_rewrite list_elem_of_In. done. }
  assert (Hone : ∀ r, hasDirtyAttributes st r = true
                      ↔ ∃ r', r' ∈ [r] ∧ hasDirtyAttributes st r' = true).
  { intros r. split; [intros; exists r; split; [by left|done]|].
    intros (r' & ->%list_elem_of_singleton & ?). done. }
  assert (Hnone : false = true
                  ↔ ∃ r : ident, r ∈ @nil ident ∧ hasDirtyAttributes st r = true).
  { split; [done|]. intros (r & Hr & _). by apply elem_of_nil in Hr. }
  destruct p as [[]|[]|]; simpl; auto.
Qed.

Lemma isRelationshipDirty_array (im : internalModel)
    (o : list (string * value)) (k : string) :
  _dependentRelationships im = Some o →
  isArray (get_prop im k) = true →
  isRelationshipDirty im k
  = Ret (bool_decide (snapshot_entry o k ≠ prop_value (get_prop im k))).
Proof.
  intros Ho Harr. unfold isRelationshipDirty.
  destruct (toArray_held _ Harr) as [-> ->]. unfold bind. rewrite Ho. f_equal.
  destruct (decide (snapshot_entry o k = VArray (held (get_prop im k))))
    as [Heq|Hne].
  - rewrite bool_decide_eq_false_2 by (intros ?; done).
    apply Ember_compare_array_0 in Heq. by rewrite Heq.
  - rewrite bool_decide_eq_true_2 by done.
    apply negb_true_iff, Z.eqb_neq. by rewrite Ember_compare_array_0.
Qed.




(** ** Order of the elements of a collection *)

Lemma sortBy_id_Permutation (a b : list ident) :
  a ≡ₚ b → sortBy_id a = sortBy_id b.
Proof.
  intros Hab. unfold sortBy_id.
  apply (Sorted_unique (≤)%nat); [apply Sorted_merge_sort; apply _..|].
  etrans; [apply merge_sort_Permutation|].
  etrans; [exact Hab|]. symmetry. apply merge_sort_Permutation.
Qed.

(** The comparison of the change handler (lines 108-109) does not see the
    order of the elements. *)
Lemma sorted_compare_Permutation (a b : list ident) :
  a ≡ₚ b → Ember_compare (VArray (sortBy_id a)) (VArray (sortBy_id b)) = 0%Z.
Proof.
  intros Hab. rewrite (sortBy_id_Permutation a b Hab).
  by apply Ember_compare_array_0.
Qed.

(** C3 fails on the code: with the snapshot [2; 3] and the collection
    [3; 2], the comparison in [isRelationshipDirty] is made without the sort
    of the change handler, so the relationship counts as dirty, the record
    is dirty, and [changedRelationships] reports the collection. *)
Theorem reordering_is_dirty :
  [3; 2] ≡ₚ [2; 3]
  ∧ isRelationshipDirty Examples.reordered_thing "children" = Ret true
  ∧ isRecordDirty Examples.reordered Examples.reordered_thing
    = Ret (JBool true)
  ∧ changedRelationships 1 (Examples.world_of Examples.reordered)
    = Ret (Examples.world_of Examples.reordered,
           [("children", (VArray [2; 3], Plain (VArray [3; 2])))]).
Proof.
  split; [apply Permutation_swap|]. repeat split; vm_compute; reflexivity.
Qed.

(** ** Single references *)

Lemma isRelationshipDirty_not_array (im : internalModel) (key : string) :
  isArray (get_prop im key) = false → isRelationshipDirty im key = Throw.
Proof.
  intros H. unfold isRelationshipDirty. by rewrite toArray_not_array.
Qed.

(** C7 fails on the code: for a belongsTo whose current record is the
    record of the snapshot, [isRelationshipDirty] calls [toArray] on the
    record and throws; no comparison is made, and [isRecordDirty] throws
    with it. *)
Theorem belongsTo_comparison_throws :
  get_prop Examples.settled_beer "brewery" = Plain (VRecord 2)
  ∧ snapshot_entry (hash_of Examples.settled_beer) "brewery" = VRecord 2
  ∧ isRelationshipDirty Examples.settled_beer "brewery" = Throw
  ∧ isRecordDirty Examples.brewed Examples.settled_beer = Throw.
Proof. repeat split. Qed.

(** ** Iteration over the dependent relationships *)


Lemma eachDependentRelationship_inv {S : Type} (P : S → Prop)
    (rels : list (string * relationshipMeta))
    (f : string → relationshipMeta → S → outcome S) (s s' : S) :
  (∀ name m s1 s2,
     (name, m) ∈ rels → meta_dependent m = true →
     P s1 → f name m s1 = Ret s2 → P s2) →
  P s → eachDependentRelationship rels f s = Ret s' → P s'.
Proof.
  revert s. induction rels as [|[name m] rels IH]; intros s Hstep Hs; simpl.
  - by intros [= <-].
  - destruct (meta_dependent m) eqn:Hdep.
    + destruct (f name m s) as [s1|] eqn:Hf; simpl; [|done].
      apply IH.
      * intros ????? ; apply Hstep. by right.
      * eapply Hstep; [by left|done|exact Hs|exact Hf].
    + apply IH; [|done]. intros ?????; apply Hstep. by right.
Qed.

Lemma eachDependentRelationship_Throw {S : Type}
    (rels : list (string * relationshipMeta))
    (f : string → relationshipMeta → S → outcome S) (s : S) :
  eachDependentRelationship rels f s = Throw →
  ∃ name m s1,
    (name, m) ∈ rels ∧ meta_dependent m = true ∧ f name m s1 = Throw.
Proof.
  revert s. induction rels as [|[name m] rels IH]; intros s; simpl; [done|].
  destruct (meta_dependent m) eqn:Hdep.
  - destruct (f name m s) as [s1|] eqn:Hf; simpl.
    + intros (n & m' & s2 & ? & ? & ?)%IH. exists n, m', s2.
      split; [by right|done].
    + intros _. exists name, m, s. split; [by left|done].
  - intros (n & m' & s2 & ? & ? & ?)%IH. exists n, m', s2.
    split; [by right|done].
Qed.

Lemma assoc_assign_ne {A : Type} (k k' : string) (v : A)
    (o : list (string * A)) :
  k ≠ k' → assoc k (assign k' v o) = assoc k o.
Proof.
  intros Hne. induction o as [|[k0 v0] o IH]; simpl.
  - by destruct (String.eqb_spec k k').
  - destruct (String.eqb_spec k' k0) as [->|Hk']; simpl.
    + by destruct (String.eqb_spec k k0).
    + by rewrite IH.
Qed.

Lemma hash_of_ensure_hash (im : internalModel) :
  hash_of (ensure_hash im) = hash_of im.
Proof.
  unfold hash_of, ensure_hash.
  destruct (_dependentRelationships im) eqn:H; simpl; by rewrite ?H.
Qed.

(** ** The observer and the frozen states *)

(** C9: when the relationship named by the observer key has no entry in the
    snapshot hash, the observer sends nothing: the list of sent messages is
    as before, and the store changes at most by the empty hash
    [internalModelFor] gives the record, so every record keeps its state. *)
Theorem observer_without_snapshot (fw : framework) (id : ident)
    (key : string) (w : world) (im : internalModel) :
  recs w !! id = Some im →
  assoc (first_segment key) (hash_of im) = None →
  ∃ w', dependentRelationshipDidChange_observer fw id key w = Ret w'
        ∧ sent w' = sent w
        ∧ pending w' = pending w
        ∧ recs w' = <[id := ensure_hash im]> (recs w)
        ∧ ∀ r, currentState <$> recs w' !! r = currentState <$> recs w !! r.
Proof.
  intros Him Hnone. eexists. unfold dependentRelationshipDidChange_observer,
    internalModelFor, with_model.
  rewrite Him. simpl. rewrite hash_of_ensure_hash, Hnone.
  repeat split. intros r. simpl. destruct (decide (r = id)) as [->|Hne].
  - rewrite lookup_insert_eq, Him. simpl. unfold ensure_hash.
    by destruct (_dependentRelationships im).
  - by rewrite lookup_insert_ne.
Qed.

Lemma observer_without_snapshot_witness :
  ∃ w', dependentRelationshipDidChange_observer (EmberData 5) 1
          "children.@each.hasDirtyAttributes"
          (Examples.world_of Examples.unsnapshotted) = Ret w'
        ∧ sent w' = []
        ∧ pending w' = []
        ∧ recs w'
          = <[1 := ensure_hash (Examples.thing loaded_saved [] (Some []) [2])]>
              Examples.unsnapshotted
        ∧ ∀ r, currentState <$> recs w' !! r
               = currentState <$> Examples.unsnapshotted !! r.
Proof.
  apply (observer_without_snapshot (EmberData 5) 1
           "children.@each.hasDirtyAttributes"
           (Examples.world_of Examples.unsnapshotted)
           (Examples.thing loaded_saved [] (Some []) [2]));
    reflexivity.
Defined.




(** In the frozen example the diff is reported all the same. *)
Example inflight_changes :
  changes_of 1 (Examples.world_of Examples.inflight)
  = Ret [("children", (VArray [2], Plain (VArray [2; 3])))].
Proof. reflexivity. Qed.

(** ** Changed relationships *)

(** C10: a dependent relationship whose current value is [null] or
    [undefined] has no entry in what [changedRelationships] returns,
    whatever its snapshot.  The method returns unless some dependent
    relationship holds a value that is neither empty nor a collection. *)
Theorem changedRelationships_omits_null (id : ident) (w : world)
    (im : internalModel) (name : string) :
  recs w !! id = Some im →
  resolved_empty (get_prop im name) = true →
  match changes_of id w with
  | Ret changed => assoc name changed = None
  | Throw =>
      ∃ name' m,
        (name', m) ∈ relationshipsByName im ∧ meta_dependent m = true
        ∧ truthy (get_prop im name') = true
        ∧ isArray (get_prop im name') = false
  end.
Proof.
  intros Him Hnull. unfold changes_of, changedRelationships,
    internalModelFor, with_model. rewrite Him. simpl.
  assert (Hp : ∀ n, get_prop (ensure_hash im) n = get_prop im n).
  { intros n. unfold get_prop, ensure_hash.
    by destruct (_dependentRelationships im). }
  assert (Hrels : relationshipsByName (ensure_hash im)
                  = relationshipsByName im).
  { unfold ensure_hash. by destruct (_dependentRelationships im). }
  rewrite Hrels.
  destruct (eachDependentRelationship _ _ _) as [changed|] eqn:Heach; simpl.
  - revert Heach.
    apply (eachDependentRelationship_inv (fun ch => assoc name ch = None));
      [|done].
    intros name' m s1 s2 _ _ Hs1. rewrite Hp.
    destruct (truthy (get_prop im name')) eqn:Ht; [|by intros [= <-]].
    destruct (isRelationshipDirty _ _) as [[]|] eqn:Hd; simpl;
      [| by intros [= <-]|done].
    assert (Hne : name ≠ name').
    { intros ->. unfold isRelationshipDirty in Hd. rewrite Hp in Hd.
      destruct (get_prop im name') as [[]|[]|]; done. }
    destruct (meta_kind m).
    + intros [= <-]. by rewrite assoc_assign_ne.
    + destruct (toArray _); simpl; [|done].
      intros [= <-]. by rewrite assoc_assign_ne.
  - apply eachDependentRelationship_Throw in Heach
      as (name' & m & s1 & Hin & Hdep & Hthrow).
    exists name', m. split; [done|]. split; [done|].
    rewrite Hp in Hthrow.
    destruct (truthy (get_prop im name')) eqn:Ht; [|done].
    split; [done|].
    destruct (isArray (get_prop im name')) eqn:Harr; [|done].
    exfalso. unfold isRelationshipDirty in Hthrow. rewrite Hp in Hthrow.
    destruct (toArray_held _ Harr) as [Hta _]. rewrite Hta in Hthrow.
    simpl in Hthrow.
    assert (Hsome : ∃ o, _dependentRelationships (ensure_hash im) = Some o).
    { unfold ensure_hash. destruct (_dependentRelationships im) eqn:Hd;
        simpl; eauto. }
    destruct Hsome as [o Ho]. rewrite Ho in Hthrow. simpl in Hthrow.
    destruct (negb _); simpl in Hthrow; [|done].
    destruct (meta_kind m); done.
Qed.

Lemma changedRelationships_omits_null_witness :
  match changes_of 1 (Examples.world_of Examples.orphaned) with
  | Ret changed => assoc "brewery" changed = None
  | Throw =>
      ∃ name' m,
        (name', m) ∈ relationshipsByName Examples.orphan_beer
        ∧ meta_dependent m = true
        ∧ truthy (get_prop Examples.orphan_beer name') = true
        ∧ isArray (get_prop Examples.orphan_beer name') = false
  end.
Proof.
  apply (changedRelationships_omits_null 1
           (Examples.world_of Examples.orphaned) Examples.orphan_beer
           "brewery"); reflexivity.
Defined.

(** The cleared brewery of the example is not reported although its
    snapshot is a record. *)
Example orphan_changes :
  snapshot_entry (hash_of Examples.orphan_beer) "brewery" = VRecord 2
  ∧ changes_of 1 (Examples.world_of Examples.orphaned) = Ret [].
Proof. split; reflexivity. Qed.

(** ** Snapshot capture *)

Lemma assoc_assign_eq {A : Type} (k : string) (v : A) (o : list (string * A)) :
  assoc k (assign k v o) = Some v.
Proof.
  induction o as [|[k0 v0] o IH]; simpl.
  - by rewrite String.eqb_refl.
  - destruct (String.eqb_spec k k0) as [->|Hne]; simpl.
    + by rewrite String.eqb_refl.
    + by destruct (String.eqb_spec k k0).
Qed.

Lemma snapshotOf_write_eq (id : ident) (name : string) (v : value)
    (w : world) :
  is_Some (recs w !! id) →
  snapshotOf (write_snapshot id name v w) id name = Some v.
Proof.
  intros [im Him]. unfold snapshotOf, write_snapshot. rewrite Him. simpl.
  rewrite lookup_insert_eq. simpl. apply assoc_assign_eq.
Qed.

Lemma snapshotOf_write_ne (id id' : ident) (name name' : string) (v : value)
    (w : world) :
  id ≠ id' ∨ name ≠ name' →
  snapshotOf (write_snapshot id' name' v w) id name = snapshotOf w id name.
Proof.
  intros Hne. unfold snapshotOf, write_snapshot.
  destruct (recs w !! id') as [im'|] eqn:Him'; [|done]. simpl.
  destruct (decide (id = id')) as [->|Hid].
  - rewrite lookup_insert_eq, Him'. simpl.
    apply assoc_assign_ne. by destruct Hne.
  - by rewrite lookup_insert_ne.
Qed.

(** Writing a snapshot entry touches nothing but the hash. *)
Lemma write_snapshot_frame (id : ident) (name : string) (v : value)
    (w : world) :
  sent (write_snapshot id name v w) = sent w
  ∧ pending (write_snapshot id name v w) = pending w
  ∧ ∀ r, (λ im, (currentState im, properties im, relationshipsByName im,
                 _attributes im))
           <$> recs (write_snapshot id name v w) !! r
         = (λ im, (currentState im, properties im, relationshipsByName im,
                   _attributes im))
             <$> recs w !! r.
Proof.
  unfold write_snapshot. destruct (recs w !! id) as [im|] eqn:Him; [|done].
  repeat split. intros r. simpl. destruct (decide (r = id)) as [->|Hne].
  - by rewrite lookup_insert_eq, Him.
  - by rewrite lookup_insert_ne.
Qed.

Lemma run_job_frame (j : job) (w : world) :
  sent (run_job j w) = sent w
  ∧ pending (run_job j w) = pending w
  ∧ ∀ r, (λ im, (currentState im, properties im, relationshipsByName im,
                 _attributes im))
           <$> recs (run_job j w) !! r
         = (λ im, (currentState im, properties im, relationshipsByName im,
                   _attributes im))
             <$> recs w !! r.
Proof.
  unfold run_job. destruct (settle _) as [v|]; [|done].
  destruct (job_kind j); [apply write_snapshot_frame|].
  destruct v; try done. destruct (recs w !! job_record j); [|done].
  destruct (toArray _); [apply write_snapshot_frame|done].
Qed.

Lemma run_job_other (j : job) (w : world) (id : ident) (name : string) :
  id ≠ job_record j ∨ name ≠ job_name j ∨ settle (job_relationship j) = None →
  snapshotOf (run_job j w) id name = snapshotOf w id name.
Proof.
  intros Hne. unfold run_job.
  destruct (settle (job_relationship j)) as [v|] eqn:Hs; [|done].
  assert (Hne' : id ≠ job_record j ∨ name ≠ job_name j).
  { destruct Hne as [?|[?|?]]; [by left|by right|done]. }
  destruct (job_kind j); [by apply snapshotOf_write_ne|].
  destruct v; try done. destruct (recs w !! job_record j); [|done].
  destruct (toArray _); [by apply snapshotOf_write_ne|done].
Qed.

Lemma ensure_hash_same (im : internalModel) :
  relationshipsByName (ensure_hash im) = relationshipsByName im
  ∧ currentState (ensure_hash im) = currentState im
  ∧ properties (ensure_hash im) = properties im
  ∧ _attributes (ensure_hash im) = _attributes im
  ∧ ∀ name, get_prop (ensure_hash im) name = get_prop im name.
Proof.
  unfold get_prop, ensure_hash. by destruct (_dependentRelationships im).
Qed.

Lemma queue_jobs (id : ident) (im : internalModel)
    (rels : list (string * relationshipMeta)) (w : world) :
  eachDependentRelationship rels
    (fun name relationshipMeta w' =>
       let relationship := get_prop im name in
       if truthy relationship then
         Ret (add_pending w'
                {| job_record := id; job_name := name;
                   job_kind := meta_kind relationshipMeta;
                   job_relationship := relationship |})
       else Ret w')
    w
  = Ret {| recs := recs w; sent := sent w;
           pending := pending w ++ snapshot_jobs id im rels |}.
Proof.
  revert w. induction rels as [|[name m] rels IH]; intros w; simpl.
  - rewrite app_nil_r. by destruct w.
  - destruct (meta_dependent m); simpl; [|apply IH].
    destruct (truthy (get_prop im name)); simpl; [|apply IH].
    rewrite IH. simpl. by rewrite <- app_assoc.
Qed.

Lemma snapshot_jobs_ensure_hash (id : ident) (im : internalModel)
    (rels : list (string * relationshipMeta)) :
  snapshot_jobs id (ensure_hash im) rels = snapshot_jobs id im rels.
Proof.
  destruct (ensure_hash_same im) as (_ & _ & _ & _ & Hp).
  induction rels as [|[name m] rels IH]; simpl; [done|].
  by rewrite Hp, IH.
Qed.

Lemma snapshotDependentRelations_queues (id : ident) (w : world)
    (im : internalModel) :
  recs w !! id = Some im →
  snapshotDependentRelations id w
  = Ret {| recs := <[id := ensure_hash im]> (recs w); sent := sent w;
           pending := pending w
                      ++ snapshot_jobs id im (relationshipsByName im) |}.
Proof.
  intros Him. unfold snapshotDependentRelations, internalModelFor, with_model.
  rewrite Him. simpl. rewrite queue_jobs. simpl.
  destruct (ensure_hash_same im) as (-> & _).
  by rewrite snapshot_jobs_ensure_hash.
Qed.

Lemma run_jobs_frame (js : list job) (w : world) :
  sent (run_jobs js w) = sent w
  ∧ pending (run_jobs js w) = pending w
  ∧ ∀ r, (λ im, (currentState im, properties im, relationshipsByName im,
                 _attributes im))
           <$> recs (run_jobs js w) !! r
         = (λ im, (currentState im, properties im, relationshipsByName im,
                   _attributes im))
             <$> recs w !! r.
Proof.
  revert w. induction js as [|j js IH]; intros w; simpl; [done|].
  destruct (IH (run_job j w)) as (-> & -> & Hr).
  destruct (run_job_frame j w) as (-> & -> & Hr').
  repeat split. intros r. by rewrite Hr, Hr'.
Qed.

Lemma run_jobs_other (js : list job) (w : world) (id : ident)
    (name : string) :
  Forall (fun j => id ≠ job_record j ∨ name ≠ job_name j
                   ∨ settle (job_relationship j) = None) js →
  snapshotOf (run_jobs js w) id name = snapshotOf w id name.
Proof.
  intros Hjs. revert w. induction Hjs as [|j js Hj _ IH]; intros w; simpl;
    [done|].
  change (run_jobs (j :: js) w) with (run_jobs js (run_job j w)).
  rewrite IH. by apply run_job_other.
Qed.

Lemma snapshot_jobs_relationship (id : ident) (im : internalModel)
    (rels : list (string * relationshipMeta)) :
  Forall (fun j => job_record j = id
                   ∧ job_relationship j = get_prop im (job_name j)
                   ∧ truthy (job_relationship j) = true
                   ∧ ∃ m, (job_name j, m) ∈ rels ∧ meta_dependent m = true
                          ∧ job_kind j = meta_kind m)
    (snapshot_jobs id im rels).
Proof.
  induction rels as [|[name m] rels IH]; simpl; [constructor|].
  apply Forall_app. split.
  - destruct (meta_dependent m) eqn:Hdep; simpl; [|constructor].
    destruct (truthy (get_prop im name)) eqn:Ht; constructor; [|constructor].
    simpl. repeat split; [done|]. exists m. split; [by left|done].
  - eapply Forall_impl; [exact IH|]. intros j (? & ? & ? & m' & ? & ?).
    repeat split; try done. exists m'. split; [by right|done].
Qed.

Lemma snapshotOf_ensure_hash (id : ident) (w : world) (im : internalModel)
    (name : string) (s : list (ident * event)) (js : list job) :
  recs w !! id = Some im →
  snapshotOf {| recs := <[id := ensure_hash im]> (recs w); sent := s;
                pending := js |} id name
  = snapshotOf w id name.
Proof.
  intros Him. unfold snapshotOf. simpl.
  by rewrite lookup_insert_eq, Him, hash_of_ensure_hash.
Qed.

(** C4, as amended: when the promise of a dependent relationship rejects,
    [snapshotDependentRelations] still returns normally to its caller; once
    the queued callbacks have had their turn the snapshot entry of that
    relationship is what it was, no message has been sent, and every record
    has the state, properties and attributes it had. *)
Theorem rejected_resolution_keeps_snapshot (id : ident) (w : world)
    (im : internalModel) (name : string) :
  recs w !! id = Some im →
  pending w = [] →
  settle (get_prop im name) = None →
  ∃ w1, snapshotDependentRelations id w = Ret w1
        ∧ snapshotOf (flush w1) id name = snapshotOf w id name
        ∧ sent (flush w1) = sent w
        ∧ ∀ r, (λ im, (currentState im, properties im, _attributes im))
                 <$> recs (flush w1) !! r
               = (λ im, (currentState im, properties im, _attributes im))
                   <$> recs w !! r.
Proof.
  intros Him Hpending Hreject.
  rewrite (snapshotDependentRelations_queues id w im Him), Hpending.
  eexists. split; [reflexivity|]. unfold flush. simpl.
  set (w1 := {| recs := <[id := ensure_hash im]> (recs w); sent := sent w;
                pending := snapshot_jobs id im (relationshipsByName im) |}).
  set (js := snapshot_jobs id im (relationshipsByName im)).
  destruct (run_jobs_frame js w1) as (Hsent & _ & Hframe).
  split; [|split; [exact Hsent|]].
  - change (snapshotOf (run_jobs js w1) id name = snapshotOf w id name).
    rewrite run_jobs_other.
    + by apply snapshotOf_ensure_hash.
    + eapply Forall_impl; [apply snapshot_jobs_relationship|].
      intros j (_ & Hrel & _). simpl in Hrel.
      destruct (decide (name = job_name j)) as [->|Hne]; [|by right; left].
      right; right. by rewrite Hrel.
  - intros r. specialize (Hframe r).
    transitivity ((λ im0, (currentState im0, properties im0, _attributes im0))
                    <$> recs w1 !! r).
    + destruct (recs (run_jobs js w1) !! r), (recs w1 !! r);
        simpl in *; congruence.
    + subst w1. simpl. destruct (decide (r = id)) as [->|Hne].
      * rewrite lookup_insert_eq, Him. simpl.
        by destruct (ensure_hash_same im) as (_ & -> & -> & -> & _).
      * by rewrite lookup_insert_ne.
Qed.

Lemma rejected_resolution_keeps_snapshot_witness :
  ∃ w1, snapshotDependentRelations 1 (Examples.world_of Examples.unresolved)
        = Ret w1
        ∧ snapshotOf (flush w1) 1 "brewery"
          = snapshotOf (Examples.world_of Examples.unresolved) 1 "brewery"
        ∧ sent (flush w1) = []
        ∧ ∀ r, (λ im, (currentState im, properties im, _attributes im))
                 <$> recs (flush w1) !! r
               = (λ im, (currentState im, properties im, _attributes im))
                   <$> Examples.unresolved !! r.
Proof.
  apply (rejected_resolution_keeps_snapshot 1
           (Examples.world_of Examples.unresolved) Examples.unresolved_beer
           "brewery"); reflexivity.
Defined.

(** C4 as stated fails: the brewery of the example is a promise that
    rejects, and the capture returns to its caller as if nothing had
    happened; the callback is never run and the rejection reaches no one. *)
Lemma rejection_is_not_propagated :
  settle (get_prop Examples.unresolved_beer "brewery") = None
  ∧ snapshotDependentRelations 1 (Examples.world_of Examples.unresolved)
    = Ret {| recs := Examples.unresolved; sent := [];
             pending := [{| job_record := 1; job_name := "brewery";
                            job_kind := belongsTo;
                            job_relationship := PromiseObject VNull false |}] |}
  ∧ snapshotDependentRelations 1 (Examples.world_of Examples.unresolved)
    ≠ Throw.
Proof. split; [reflexivity|]. split; [by vm_compute|by vm_compute]. Qed.

(** ** Commit *)


Lemma get_prop_properties (im im' : internalModel) (name : string) :
  properties im' = properties im → get_prop im' name = get_prop im name.
Proof. unfold get_prop. by intros ->. Qed.

Lemma settle_array (p : jsprop) (v : value) :
  isArray p = true → settle p = Some v → v = VArray (held p).
Proof. destruct p as [[]|?[]|?[]]; simpl; congruence. Qed.

Lemma settle_prop_value (p : jsprop) (v : value) :
  settle p = Some v → v = prop_value p.
Proof. destruct p as [|?[]|?[]]; simpl; congruence. Qed.

Lemma run_job_captures (j : job) (w : world) (id : ident)
    (im : internalModel) (v : value) :
  properties <$> recs w !! id = Some (properties im) →
  job_record j = id →
  job_relationship j = get_prop im (job_name j) →
  settle (get_prop im (job_name j)) = Some v →
  (job_kind j = hasMany → isArray (get_prop im (job_name j)) = true) →
  snapshotOf (run_job j w) id (job_name j) = Some v.
Proof.
  intros Hprops Hid Hrel Hsettle Hkind. unfold run_job.
  rewrite Hrel, Hsettle, Hid.
  destruct (recs w !! id) as [im'|] eqn:Him'; [|done].
  simpl in Hprops. injection Hprops as Hprops.
  destruct (job_kind j).
  - apply snapshotOf_write_eq. by rewrite Him'.
  - specialize (Hkind eq_refl).
    rewrite (settle_array _ _ Hkind Hsettle).
    rewrite (get_prop_properties im im' _ Hprops).
    destruct (toArray_held _ Hkind) as [-> _].
    apply snapshotOf_write_eq. by rewrite Him'.
Qed.

Lemma run_jobs_captures (js : list job) (w : world) (id : ident)
    (im : internalModel) (name : string) (v : value) :
  properties <$> recs w !! id = Some (properties im) →
  settle (get_prop im name) = Some v →
  Forall (fun j => job_record j = id
                   ∧ job_relationship j = get_prop im (job_name j)
                   ∧ (job_name j = name → job_kind j = hasMany →
                      isArray (get_prop im name) = true)) js →
  snapshotOf w id name = Some v ∨ (∃ j, j ∈ js ∧ job_name j = name) →
  snapshotOf (run_jobs js w) id name = Some v.
Proof.
  intros Hprops Hsettle Hjs. revert w Hprops.
  induction Hjs as [|j js (Hid & Hrel & Hkind) _ IH]; intros w Hprops Hor.
  - destruct Hor as [?|(j & Hj & _)]; [done|]. by apply elem_of_nil in Hj.
  - change (run_jobs (j :: js) w) with (run_jobs js (run_job j w)).
    assert (Hprops' : properties <$> recs (run_job j w) !! id
                      = Some (properties im)).
    { destruct (run_job_frame j w) as (_ & _ & Hframe).
      specialize (Hframe id).
      destruct (recs (run_job j w) !! id), (recs w !! id);
        simpl in *; congruence. }
    apply IH; [done|].
    destruct (decide (job_name j = name)) as [Hname|Hname].
    + left. subst name.
      exact (run_job_captures j w id im v Hprops Hid Hrel Hsettle
               (Hkind eq_refl)).
    + destruct Hor as [Hv|(j' & Hj' & Hname')].
      * left. rewrite run_job_other; [done|]. right; left. congruence.
      * apply elem_of_cons in Hj' as [->|Hj']; [done|]. right. eauto.
Qed.

Lemma keys_NoDup_inj {A : Type} (o : list (string * A)) (k : string)
    (a b : A) :
  NoDup (keys o) → (k, a) ∈ o → (k, b) ∈ o → a = b.
Proof.
  induction o as [|[k0 v0] o IH]; simpl; intros Hnd Ha Hb.
  - by apply elem_of_nil in Ha.
  - apply NoDup_cons in Hnd as [Hk0 Hnd].
    assert (Hkey : ∀ c, (k0, c) ∈ o → False).
    { intros c Hc. apply Hk0. unfold keys.
      apply list_elem_of_fmap. by exists (k0, c). }
    apply elem_of_cons in Ha as [Ha|Ha];
      apply elem_of_cons in Hb as [Hb|Hb]; simplify_eq.
    + done.
    + by destruct (Hkey b).
    + by destruct (Hkey a).
    + by apply IH.
Qed.

Lemma snapshot_jobs_has (id : ident) (im : internalModel)
    (rels : list (string * relationshipMeta)) (name : string)
    (m : relationshipMeta) :
  (name, m) ∈ rels → meta_dependent m = true →
  truthy (get_prop im name) = true →
  ∃ j, j ∈ snapshot_jobs id im rels ∧ job_name j = name.
Proof.
  intros Hin Hdep Ht. induction rels as [|[name' m'] rels IH]; simpl.
  - by apply elem_of_nil in Hin.
  - apply elem_of_cons in Hin as [Hin|Hin].
    + simplify_eq. rewrite Hdep, Ht. simpl. eexists. split; [by left|done].
    + destruct (IH Hin) as (j & Hj & Hname). exists j. split; [|done].
      apply elem_of_app. by right.
Qed.



(** In the example of the witness the notification is sent while the
    snapshot callback is still queued: it carries the snapshot of before the
    commit, the record is told to become dirty, and the callback that
    brings the snapshot up to date sends nothing. *)
Example commit_notifies_before_snapshot :
  ∃ w2, adapterDidCommit (EmberData 8) 1 (Examples.world_of Examples.inflight)
        = Ret w2
        ∧ sent w2
          = [(1, dependentRelationshipDidChange Examples.children_changed);
             (1, becomeDirty)]
        ∧ snapshotOf w2 1 "children" = Some (VArray [2])
        ∧ snapshotOf (flush w2) 1 "children" = Some (VArray [2; 3])
        ∧ sent (flush w2) = sent w2
        ∧ hasDirtyAttributes (recs (flush w2)) 1 = true.
Proof. eexists. repeat split; vm_compute; reflexivity. Qed.


(** ** Rollback of a clean record *)

Lemma any_key_false (f : string → outcome bool) (ks : list string) :
  any_key f ks = Ret false → ∀ k, k ∈ ks → f k = Ret false.
Proof.
  induction ks as [|k0 ks IH]; simpl; intros Hany k Hk.
  - by apply elem_of_nil in Hk.
  - destruct (f k0) as [[]|] eqn:Hf; simpl in Hany; try done.
    apply elem_of_cons in Hk as [->|Hk]; [done|by apply IH].
Qed.

Lemma assoc_keys {A : Type} (o : list (string * A)) (k : string) :
  k ∈ keys o ↔ is_Some (assoc k o).
Proof.
  induction o as [|[k0 v0] o IH]; simpl.
  - split; [intros H; by apply elem_of_nil in H|by intros [? ?]].
  - destruct (String.eqb_spec k k0) as [->|Hne].
    + split; [by eexists|by left].
    + rewrite <- IH. split; [|by right].
      intros [?|?]%elem_of_cons; done.
Qed.

Lemma assign_same {A : Type} (o : list (string * A)) (k : string) (v : A) :
  assoc k o = Some v → assign k v o = o.
Proof.
  induction o as [|[k0 v0] o IH]; simpl; [done|].
  destruct (String.eqb_spec k k0) as [->|Hne].
  - by intros [= ->].
  - intros H. by rewrite IH.
Qed.

Lemma existsb_held (st : store) (p : jsprop) :
  truthy_jsbool (isRelatedRecordDirty st p)
  = existsb (hasDirtyAttributes st) (held p).
Proof.
  destruct p as [[]|[]|]; simpl; try done; by rewrite orb_false_r.
Qed.


Lemma get_prop_array (im : internalModel) (name : string) :
  isArray (get_prop im name) = true →
  assoc name (properties im) = Some (get_prop im name).
Proof.
  unfold get_prop. by destruct (assoc name (properties im)).
Qed.

Lemma at_snapshot_get_prop (im : internalModel) (name : string)
    (orig : value) :
  at_snapshot im name orig →
  assoc name (properties im) = Some (get_prop im name)
  ∧ (get_prop im name = Plain orig
     ∨ ∃ l f, get_prop im name = PromiseManyArray l f ∧ orig = VArray l).
Proof.
  unfold get_prop. intros [H|(l & f & H & ->)]; rewrite H;
    (split; [done|]); [by left|right; eauto].
Qed.

(** What [isRecordDirty] calls clean is clean. *)
Lemma isRecordDirty_false_clean (st : store) (im : internalModel) :
  isRecordDirty st im = Ret (JBool false) → clean_record st im.
Proof.
  intros Hclean. unfold isRecordDirty in Hclean.
  destruct (_attributes im) eqn:Hattrs; simpl in Hclean; [|done].
  split; [done|].
  destruct (_dependentRelationships im) as [o|] eqn:Ho; [|done].
  exists o. split; [done|]. intros name orig Horig.
  destruct (any_key _ _) as [[]|] eqn:Hany; simpl in Hclean; try done.
  assert (Hk : name ∈ keys o) by (apply assoc_keys; eauto).
  pose proof (any_key_false _ _ Hany name Hk) as Hf. simpl in Hf.
  destruct (isArray (get_prop im name)) eqn:Harr.
  2: { by rewrite (isRelationshipDirty_not_array im name Harr) in Hf. }
  rewrite (isRelationshipDirty_array im o name Ho Harr) in Hf. simpl in Hf.
  destruct (bool_decide _) eqn:Hd; [done|].
  apply bool_decide_eq_false_1, dec_stable in Hd. injection Hf as Hf.
  rewrite existsb_held in Hf. split; [|done].
  unfold snapshot_entry in Hd. rewrite Horig in Hd. subst orig.
  pose proof (get_prop_array im name Harr) as Hassoc.
  unfold at_snapshot. rewrite Hassoc.
  destruct (get_prop im name) as [[]| |]; simpl in *;
    try done; [by left|right; eauto].
Qed.

Lemma ensure_hash_Some (im : internalModel) (o : list (string * value)) :
  _dependentRelationships im = Some o → ensure_hash im = im.
Proof. unfold ensure_hash. by intros ->. Qed.

Lemma set_recs_same (w : world) : set_recs w (recs w) = w.
Proof. by destruct w. Qed.








(** The scenario of the specification: rolling back the parent cleans the
    child and the parent, and a second rollback changes nothing. *)
Example rollback_twice :
  ∃ w1 w2,
    rollbackAttributes (EmberData 9) 3 1
      (Examples.world_of Examples.child_renamed) = Some (Ret w1)
    ∧ recs w1 = Examples.settled
    ∧ rollbackAttributes (EmberData 9) 3 1 w1 = Some (Ret w2)
    ∧ recs w2 = recs w1.
Proof. do 2 eexists. repeat split; vm_compute; reflexivity. Qed.

(** ** Rollback and the dirty check *)

(** The cascade of section 4.6 on three generations: every record ends
    clean and settled. *)
Example rollback_generations :
  ∃ w1,
    rollbackAttributes (EmberData 12) 4 1
      (Examples.world_of Examples.grandchild_renamed) = Some (Ret w1)
    ∧ recs w1 = Examples.generations.
Proof. eexists. split; vm_compute; reflexivity. Qed.

(** C2 fails on the code for a record with a dependent belongsTo: the
    rollback of a settled beer returns and leaves the brewery at its
    snapshot, but the dirty check that follows throws, because
    [isRelationshipDirty] calls [toArray] on the brewery; and the rollback
    of a beer whose brewery was changed does not return at all, because the
    same check runs in [savedSetup] on the way. *)
Theorem rollback_belongsTo_dirty_check_throws :
  (∃ w', rollbackAttributes (EmberData 5) 3 1
           (Examples.world_of Examples.brewed) = Some (Ret w')
         ∧ recs w' = Examples.brewed
         ∧ get_prop Examples.settled_beer "brewery" = Plain (VRecord 2)
         ∧ snapshotOf w' 1 "brewery" = Some (VRecord 2)
         ∧ isRecordDirty (recs w') Examples.settled_beer = Throw)
  ∧ rollbackAttributes (EmberData 5) 3 1 (Examples.world_of Examples.moved)
    = Some Throw.
Proof.
  split; [eexists; repeat split; vm_compute; reflexivity|].
  vm_compute. reflexivity.
Qed.

(** * Further properties of the package *)

(** ** Iteration and observer keys *)

(** X1: [eachDependentRelationship] (lines 159-172) does not see the
    relationships that are not dependent: iterating over all relationships
    is iterating over the dependent ones, in the same order. *)
Theorem eachDependentRelationship_dependent_only {S : Type}
    (rels : list (string * relationshipMeta))
    (callback : string → relationshipMeta → S → outcome S) (s : S) :
  eachDependentRelationship rels callback s
  = eachDependentRelationship
      (filter (fun nm => meta_dependent nm.2 = true) rels) callback s.
Proof.
  revert s. induction rels as [|[name m] rels IH]; intros s; [done|].
  rewrite filter_cons. simpl. destruct (meta_dependent m) eqn:Hdep.
  - rewrite decide_True by done. simpl. rewrite Hdep.
    destruct (callback name m s); simpl; [apply IH|done].
  - rewrite decide_False by (by intros ?). apply IH.
Qed.

Lemma first_segment_app (a b : string) :
  first_segment (a ++ String "."%char b) = first_segment a.
Proof.
  induction a as [|c a IH]; simpl; [done|].
  destruct (Ascii.eqb c "."%char); [done|]. by rewrite IH.
Qed.

Lemma first_segment_dotless (a : string) :
  dotless a = true → first_segment a = a.
Proof.
  induction a as [|c a IH]; simpl; [done|].
  destruct (Ascii.eqb c "."%char); simpl; [done|]. by intros ->%IH.
Qed.

(** X2: the observer recovers the name of the relationship from the path
    [didDefineProperty] registered (lines 183, 185 and 215): for a property
    name without a dot, [key.split('.')[0]] of every registered path is the
    property name. *)
Theorem observer_key_round_trip (key path : string) (d : descriptor) :
  dotless key = true →
  path ∈ didDefineProperty key d →
  first_segment path = key.
Proof.
  intros Hdot Hpath.
  transitivity (first_segment key); [|by apply first_segment_dotless].
  destruct d as [| |meta]; simpl in Hpath; try by apply elem_of_nil in Hpath.
  destruct (meta_dependent meta); [|by apply elem_of_nil in Hpath].
  destruct (meta_kind meta); apply list_elem_of_singleton in Hpath as ->;
    apply first_segment_app.
Qed.

Lemma observer_key_round_trip_witness :
  first_segment "children.@each.hasDirtyAttributes" = "children".
Proof.
  apply (observer_key_round_trip "children" "children.@each.hasDirtyAttributes"
           (RelationshipDescriptor
              {| meta_kind := hasMany; meta_dependent := true |})).
  - reflexivity.
  - by left.
Defined.

(** ** The dirty check *)

(** X3: for a record without snapshot entries (no hash, or an empty one)
    the dirty check is the check of the pending attributes: it returns, and
    its answer is truthy exactly when [_attributes] has a key. *)
Theorem isRecordDirty_without_snapshots (st : store) (im : internalModel) :
  hash_of im = [] →
  ∃ j, isRecordDirty st im = Ret j
       ∧ truthy_jsbool j = bool_decide (_attributes im ≠ []).
Proof.
  intros Hhash. unfold isRecordDirty, hash_of in *.
  destruct (_attributes im) as [|a attrs]; simpl.
  - destruct (_dependentRelationships im) as [o|]; [subst o|]; by eexists.
  - by eexists.
Qed.

Lemma isRecordDirty_without_snapshots_witness :
  ∃ j, isRecordDirty App.cellar
         (App.Beer updated_uncommitted ["name"] (VRecord 2)) = Ret j
       ∧ truthy_jsbool j = bool_decide (["name"] ≠ []).
Proof.
  apply (isRecordDirty_without_snapshots App.cellar
           (App.Beer updated_uncommitted ["name"] (VRecord 2))).
  reflexivity.
Defined.

Lemma any_key_Throw (f : string → outcome bool) (ks : list string) :
  any_key f ks = Throw
  ↔ ∃ pre k post, ks = (pre ++ k :: post)%list
                  ∧ Forall (fun k' => f k' = Ret false) pre ∧ f k = Throw.
Proof.
  induction ks as [|k0 ks IH]; simpl.
  - split; [done|]. intros (pre & k & post & Heq & _). by destruct pre.
  - destruct (f k0) as [[]|] eqn:Hf; simpl.
    + split; [done|]. intros (pre & k & post & Heq & Hpre & Hk).
      destruct pre as [|k1 pre]; simplify_eq/=; [congruence|].
      apply Forall_cons in Hpre as [? _]. congruence.
    + rewrite IH. split.
      * intros (pre & k & post & -> & Hpre & Hk).
        exists (k0 :: pre), k, post. split; [done|].
        split; [by constructor|done].
      * intros (pre & k & post & Heq & Hpre & Hk).
        destruct pre as [|k1 pre]; simplify_eq/=; [congruence|].
        apply Forall_cons in Hpre as [_ Hpre]. by exists pre, k, post.
    + split; [|done]. intros _. exists [], k0, ks. by repeat split.
Qed.

(** X4: when the dirty check throws (lines 72-92).  It throws exactly when
    no attribute is pending and, going through the keys of the snapshot hash
    in order, a relationship that does not hold a collection is reached
    before any relationship that is dirty: every key before it holds the
    collection of its snapshot and no dirty record. *)
Theorem isRecordDirty_Throw_iff (st : store) (im : internalModel) :
  isRecordDirty st im = Throw
  ↔ _attributes im = []
    ∧ ∃ o pre k post,
        _dependentRelationships im = Some o
        ∧ keys o = (pre ++ k :: post)%list
        ∧ Forall (fun k' =>
                    isArray (get_prop im k') = true
                    ∧ snapshot_entry o k' = VArray (held (get_prop im k'))
                    ∧ existsb (hasDirtyAttributes st) (held (get_prop im k'))
                      = false) pre
        ∧ isArray (get_prop im k) = false.
Proof.
  unfold isRecordDirty.
  destruct (_attributes im) as [|a attrs]; simpl.
  2: { split; [done|]. by intros [? _]. }
  destruct (_dependentRelationships im) as [o|] eqn:Ho.
  2: { split; [done|]. by intros (_ & ? & ? & ? & ? & ? & _). }
  set (f := fun key : string =>
              let! d := isRelationshipDirty im key in
              if d then Ret true
              else Ret (truthy_jsbool
                          (isRelatedRecordDirty st (get_prop im key)))).
  assert (Hthrow : ∀ k, f k = Throw ↔ isArray (get_prop im k) = false).
  { intros k. unfold f. destruct (isArray (get_prop im k)) eqn:Harr.
    - rewrite (isRelationshipDirty_array im o k Ho Harr). simpl.
      by destruct (bool_decide _).
    - by rewrite (isRelationshipDirty_not_array im k Harr). }
  assert (Hfalse : ∀ k, f k = Ret false
                        ↔ isArray (get_prop im k) = true
                          ∧ snapshot_entry o k
                            = VArray (held (get_prop im k))
                          ∧ existsb (hasDirtyAttributes st)
                              (held (get_prop im k)) = false).
  { intros k. unfold f. destruct (isArray (get_prop im k)) eqn:Harr.
    - rewrite (isRelationshipDirty_array im o k Ho Harr). simpl.
      destruct (toArray_held _ Harr) as [_ ->].
      rewrite existsb_held. case_bool_decide as Hd; simpl.
      + split; [done|]. by intros (_ & ? & _).
      + split.
        * intros [= ->]. done.
        * by intros (_ & _ & ->).
    - rewrite (isRelationshipDirty_not_array im k Harr). simpl.
      split; [done|]. by intros [? _]. }
  destruct (any_key f (keys o)) as [b|] eqn:Hany; simpl.
  - split; [done|]. intros (_ & o' & pre & k & post & [= <-] & Hkeys & Hpre & Hk).
    assert (any_key f (keys o) = Throw); [|congruence].
    apply any_key_Throw. exists pre, k, post. split; [done|].
    split; [|by apply Hthrow].
    eapply Forall_impl; [exact Hpre|]. intros k'. apply Hfalse.
  - split; [|done]. intros _. split; [done|].
    apply any_key_Throw in Hany as (pre & k & post & Hkeys & Hpre & Hk).
    exists o, pre, k, post. split; [done|]. split; [done|].
    split; [|by apply Hthrow].
    eapply Forall_impl; [exact Hpre|]. intros k'. apply Hfalse.
Qed.

(** ** The change handler *)

Lemma sortBy_id_eq (a b : list ident) : sortBy_id a = sortBy_id b ↔ a ≡ₚ b.
Proof.
  split; [|apply sortBy_id_Permutation].
  intros Heq. unfold sortBy_id in Heq.
  etrans; [symmetry; apply (merge_sort_Permutation (≤)%nat)|].
  rewrite Heq. apply merge_sort_Permutation.
Qed.

Lemma Ember_compare_0 (v w : value) : Ember_compare v w = 0%Z ↔ v = w.
Proof.
  destruct v, w; simpl; try (split; [by vm_compute|done]); try done.
  - rewrite compare_0. split; congruence.
  - rewrite compare_arrays_0. split; congruence.
Qed.

(** X5: the change handler (lines 99-113) compares a collection with its
    snapshot as a multiset.  For a collection [a] with snapshot [b] it sends
    [propertyWasReset] when [a] is a permutation of [b] and holds no dirty
    record, and [becomeDirty] in every other case. *)
Theorem handler_collection (fw : framework) (id : ident) (name : string)
    (a b : list ident) (w : world) :
  dependentRelationshipDidChange_handler fw id
    {| ctx_name := name; ctx_value := Plain (VArray a);
       ctx_originalValue := VArray b |} w
  = if bool_decide (a ≡ₚ b)
       && negb (existsb (hasDirtyAttributes (recs w)) a)
    then send_propertyWasReset fw id w
    else send_framework fw id becomeDirty w.
Proof.
  unfold dependentRelationshipDidChange_handler, compareRelation. simpl.
  case_bool_decide as Hperm; simpl.
  - apply sortBy_id_eq in Hperm. rewrite Hperm.
    assert (Hc : compare_arrays (sortBy_id b) (sortBy_id b) = 0%Z)
      by (by apply compare_arrays_0).
    rewrite Hc. simpl. by destruct (existsb _ a).
  - assert (Hc : compare_arrays (sortBy_id a) (sortBy_id b) ≠ 0%Z).
    { rewrite compare_arrays_0, sortBy_id_eq. done. }
    apply Z.eqb_neq in Hc. by rewrite Hc.
Qed.

(** X6: the change handler compares a value that is not a collection (a
    record, [null]) with its snapshot by identity: it sends
    [propertyWasReset] when the value is the snapshot and is not a dirty
    record, and [becomeDirty] in every other case. *)
Theorem handler_single_reference (fw : framework) (id : ident)
    (name : string) (v orig : value) (w : world) :
  isArray (Plain v) = false →
  dependentRelationshipDidChange_handler fw id
    {| ctx_name := name; ctx_value := Plain v; ctx_originalValue := orig |} w
  = if bool_decide (v = orig)
       && negb (existsb (hasDirtyAttributes (recs w)) (held (Plain v)))
    then send_propertyWasReset fw id w
    else send_framework fw id becomeDirty w.
Proof.
  intros Harr.
  unfold dependentRelationshipDidChange_handler, compareRelation.
  cbn [ctx_value ctx_originalValue]. rewrite Harr. cbn [andb].
  rewrite existsb_held. cbn [Ember_compare_prop].
  case_bool_decide as Heq; cbn [andb].
  - apply Ember_compare_0 in Heq. rewrite Heq. simpl.
    by destruct (existsb _ _).
  - assert (Hc : Ember_compare v orig ≠ 0%Z) by (by rewrite Ember_compare_0).
    apply Z.eqb_neq in Hc. by rewrite Hc.
Qed.

Lemma handler_single_reference_witness :
  dependentRelationshipDidChange_handler (EmberData 5) 1
    {| ctx_name := "brewery"; ctx_value := Plain (VRecord 3);
       ctx_originalValue := VRecord 2 |}
    (Examples.world_of Examples.moved)
  = if bool_decide (VRecord 3 = VRecord 2)
       && negb (existsb (hasDirtyAttributes Examples.moved)
                  (held (Plain (VRecord 3))))
    then send_propertyWasReset (EmberData 5) 1
           (Examples.world_of Examples.moved)
    else send_framework (EmberData 5) 1 becomeDirty
           (Examples.world_of Examples.moved).
Proof.
  apply (handler_single_reference (EmberData 5) 1 "brewery" (VRecord 3)
           (VRecord 2) (Examples.world_of Examples.moved)).
  reflexivity.
Defined.

(** ** The report of changed relationships *)

Lemma changed_fold (im : internalModel) (o : list (string * value))
    (rels : list (string * relationshipMeta)) (acc : list (string * change)) :
  _dependentRelationships im = Some o →
  (∀ name m, (name, m) ∈ rels → meta_dependent m = true →
             meta_kind m = hasMany ∧ isArray (get_prop im name) = true) →
  ∃ changed,
    eachDependentRelationship rels
      (fun name relationshipMeta changed =>
         let relationship := get_prop im name in
         if truthy relationship then
           let! d := isRelationshipDirty im name in
           if d then
             match meta_kind relationshipMeta with
             | belongsTo =>
                 Ret (assign name (snapshot_entry o name, relationship)
                        changed)
             | hasMany =>
                 let! a := toArray relationship in
                 Ret (assign name (snapshot_entry o name, Plain (VArray a))
                        changed)
             end
           else Ret changed
         else Ret changed)
      acc = Ret changed
    ∧ ∀ name,
        assoc name changed
        = if existsb
               (fun nm : string * relationshipMeta =>
                  String.eqb nm.1 name && meta_dependent nm.2
                  && bool_decide (snapshot_entry o name
                                  ≠ VArray (held (get_prop im name))))
               rels
          then Some (snapshot_entry o name,
                     Plain (VArray (held (get_prop im name))))
          else assoc name acc.
Proof.
  intros Ho. revert acc.
  induction rels as [|[n0 m0] rels IH]; intros acc Hall; simpl.
  - by eexists.
  - assert (Hall' : ∀ name m, (name, m) ∈ rels → meta_dependent m = true →
                      meta_kind m = hasMany
                      ∧ isArray (get_prop im name) = true).
    { intros ????. apply Hall; [by right|done]. }
    destruct (meta_dependent m0) eqn:Hdep; simpl.
    2: { destruct (IH acc Hall') as (changed & Heq & Hch).
         exists changed. split; [exact Heq|]. intros name. rewrite Hch.
         by rewrite andb_false_r. }
    destruct (Hall n0 m0) as [Hkind Harr]; [by left|done|].
    assert (Ht : truthy (get_prop im n0) = true).
    { by destruct (get_prop im n0) as [[]| |]. }
    rewrite Ht, (isRelationshipDirty_array im o n0 Ho Harr). simpl.
    destruct (toArray_held _ Harr) as [Hta Hval]. rewrite Hval.
    case_bool_decide as Hd; simpl.
    + rewrite Hkind, Hta. simpl.
      destruct (IH (assign n0 (snapshot_entry o n0,
                               Plain (VArray (held (get_prop im n0)))) acc)
                  Hall') as (changed & Heq & Hch).
      exists changed. split; [exact Heq|]. intros name. rewrite Hch.
      destruct (existsb _ rels); [by rewrite orb_true_r|].
      rewrite orb_false_r. destruct (String.eqb_spec n0 name) as [->|Hne].
      * simpl. rewrite bool_decide_eq_true_2 by done. apply assoc_assign_eq.
      * simpl. by apply assoc_assign_ne.
    + destruct (IH acc Hall') as (changed & Heq & Hch).
      exists changed. split; [exact Heq|]. intros name. rewrite Hch.
      destruct (String.eqb_spec n0 name) as [->|Hne]; simpl; [|done].
      by rewrite bool_decide_eq_false_2 by (intros ?; done).
Qed.

Lemma ensure_hash_hash (im : internalModel) :
  _dependentRelationships (ensure_hash im) = Some (hash_of im).
Proof.
  unfold ensure_hash, hash_of.
  destruct (_dependentRelationships im) eqn:H; simpl; by rewrite ?H.
Qed.

(** X7: what [changedRelationships] (lines 192-210) reports for a record
    whose dependent relationships are collections.  It returns, and a name
    has an entry exactly when it is a dependent relationship whose snapshot
    is not the array of the current collection, which includes a
    relationship that has no snapshot yet; the entry is the snapshot
    ([undefined] when there is none) and the current array. *)
Theorem changedRelationships_collections (id : ident) (w : world)
    (im : internalModel) :
  recs w !! id = Some im →
  (∀ name m, (name, m) ∈ relationshipsByName im → meta_dependent m = true →
             meta_kind m = hasMany ∧ isArray (get_prop im name) = true) →
  ∃ changed,
    changes_of id w = Ret changed
    ∧ ∀ name entry,
        assoc name changed = Some entry
        ↔ (∃ m, (name, m) ∈ relationshipsByName im ∧ meta_dependent m = true)
          ∧ snapshot_entry (hash_of im) name
            ≠ VArray (held (get_prop im name))
          ∧ entry = (snapshot_entry (hash_of im) name,
                     Plain (VArray (held (get_prop im name)))).
Proof.
  intros Him Hall.
  destruct (ensure_hash_same im) as (Hrels & _ & _ & _ & Hp).
  destruct (changed_fold (ensure_hash im) (hash_of im)
              (relationshipsByName (ensure_hash im)) []
              (ensure_hash_hash im)) as (changed & Heq & Hch).
  { intros name m Hin Hdep. rewrite Hp. rewrite Hrels in Hin. by apply Hall. }
  exists changed. split.
  - unfold changes_of, changedRelationships, internalModelFor, with_model.
    rewrite Him. cbn [bind fst snd]. rewrite hash_of_ensure_hash.
    match goal with
    | |- context [eachDependentRelationship ?r ?f ?a] =>
        assert (Hg : eachDependentRelationship r f a = Ret changed)
          by exact Heq;
        rewrite Hg
    end.
    reflexivity.
  - intros name entry. rewrite Hch, Hrels, Hp. simpl.
    destruct (existsb _ _) eqn:Hex.
    + apply existsb_exists in Hex as ([n m] & Hin & Hb).
      apply andb_true_iff in Hb as [Hb Hd].
      apply andb_true_iff in Hb as [Hn Hdep]. simpl in *.
      apply String.eqb_eq in Hn as ->. apply bool_decide_eq_true_1 in Hd.
      apply list_elem_of_In in Hin. split.
      * intros [= <-]. split; [eauto|done].
      * by intros (_ & _ & ->).
    + split; [done|]. intros ((m & Hin & Hdep) & Hd & _).
      assert (Hex' : existsb
                (fun nm : string * relationshipMeta =>
                   String.eqb nm.1 name && meta_dependent nm.2
                   && bool_decide (snapshot_entry (hash_of im) name
                                   ≠ VArray (held (get_prop im name))))
                (relationshipsByName im) = true); [|congruence].
      apply existsb_exists. exists (name, m).
      split; [by apply list_elem_of_In|]. simpl.
      rewrite String.eqb_refl, Hdep. simpl. by apply bool_decide_eq_true_2.
Qed.

Lemma changedRelationships_collections_witness :
  ∃ changed,
    changes_of 1 (Examples.world_of Examples.unsnapshotted) = Ret changed
    ∧ ∀ name entry,
        assoc name changed = Some entry
        ↔ (∃ m, (name, m) ∈ Examples.children_meta ∧ meta_dependent m = true)
          ∧ snapshot_entry [] name
            ≠ VArray (held (get_prop
                              (Examples.thing loaded_saved [] (Some []) [2])
                              name))
          ∧ entry = (snapshot_entry [] name,
                     Plain (VArray
                              (held (get_prop
                                       (Examples.thing loaded_saved []
                                          (Some []) [2]) name)))).
Proof.
  apply (changedRelationships_collections 1
           (Examples.world_of Examples.unsnapshotted)
           (Examples.thing loaded_saved [] (Some []) [2])).
  - reflexivity.
  - intros name m Hin _. apply list_elem_of_singleton in Hin.
    injection Hin as -> ->. split; reflexivity.
Defined.




(** ** The settled capture *)

Lemma snapshotSettled_eq (id : ident) (w : world) (im : internalModel) :
  recs w !! id = Some im →
  pending w = [] →
  snapshotSettled id w
  = Ret (flush {| recs := <[id := ensure_hash im]> (recs w); sent := sent w;
                  pending := snapshot_jobs id im (relationshipsByName im) |}).
Proof.
  intros Him Hpending. unfold snapshotSettled.
  by rewrite (snapshotDependentRelations_queues id w im Him), Hpending.
Qed.

Lemma snapshot_jobs_kind (id : ident) (im : internalModel)
    (rels : list (string * relationshipMeta)) (name : string)
    (m : relationshipMeta) :
  NoDup (keys rels) → (name, m) ∈ rels →
  Forall (fun j => job_record j = id
                   ∧ job_relationship j = get_prop im (job_name j)
                   ∧ (job_name j = name → job_kind j = meta_kind m))
    (snapshot_jobs id im rels).
Proof.
  intros Hnd Hin.
  eapply Forall_impl; [apply snapshot_jobs_relationship|].
  intros j (Hid & Hrel & _ & m' & Hin' & _ & Hk). simpl.
  split; [done|]. split; [done|]. intros Hname. subst name.
  by rewrite (keys_NoDup_inj _ _ m m' Hnd Hin Hin').
Qed.

Lemma settled_capture (id : ident) (w : world)
    (im : internalModel) (name : string) (m : relationshipMeta) :
  recs w !! id = Some im →
  pending w = [] →
  NoDup (keys (relationshipsByName im)) →
  (name, m) ∈ relationshipsByName im →
  meta_dependent m = true →
  truthy (get_prop im name) = true →
  is_Some (settle (get_prop im name)) →
  (meta_kind m = hasMany → isArray (get_prop im name) = true) →
  ∃ w', snapshotSettled id w = Ret w'
        ∧ snapshotOf w' id name = Some (prop_value (get_prop im name))
        ∧ sent w' = sent w
        ∧ pending w' = []
        ∧ ∀ r, (λ im, (currentState im, properties im, relationshipsByName im,
                       _attributes im)) <$> recs w' !! r
               = (λ im, (currentState im, properties im,
                         relationshipsByName im, _attributes im))
                   <$> recs w !! r.
Proof.
  intros Him Hpending Hnd Hin Hdep Ht [v Hv] Hkind.
  rewrite (snapshotSettled_eq id w im Him Hpending).
  eexists. split; [reflexivity|].
  set (W1 := {| recs := <[id := ensure_hash im]> (recs w); sent := sent w;
                pending := snapshot_jobs id im (relationshipsByName im) |}).
  set (js := snapshot_jobs id im (relationshipsByName im)).
  destruct (run_jobs_frame js W1) as (Hsent & _ & Hframe).
  assert (Hframe' : ∀ r,
            (λ im, (currentState im, properties im, relationshipsByName im,
                    _attributes im)) <$> recs (run_jobs js W1) !! r
            = (λ im, (currentState im, properties im, relationshipsByName im,
                      _attributes im)) <$> recs w !! r).
  { intros r. rewrite Hframe. subst W1. simpl.
    destruct (decide (r = id)) as [->|Hne].
    - rewrite lookup_insert_eq, Him. simpl.
      by destruct (ensure_hash_same im) as (-> & -> & -> & -> & _).
    - by rewrite lookup_insert_ne. }
  split; [|split; [exact Hsent|split; [done|exact Hframe']]].
  rewrite <- (settle_prop_value _ _ Hv). unfold flush.
  change (snapshotOf (run_jobs js W1) id name = Some v).
  apply (run_jobs_captures js W1 id im name v).
  - subst W1. simpl. rewrite lookup_insert_eq. simpl.
    by destruct (ensure_hash_same im) as (_ & _ & -> & _).
  - done.
  - eapply Forall_impl; [exact (snapshot_jobs_kind id im _ name m Hnd Hin)|].
    intros j (Hid & Hrel & Hk). simpl. split; [done|]. split; [done|].
    intros Hname Hmany. apply Hkind. by rewrite <- (Hk Hname).
  - right. by eapply snapshot_jobs_has.
Qed.

(** X9: the capture takes the current values.  After
    [snapshotDependentRelations] (lines 234-250) and the turn of its
    callbacks, a dependent relationship whose value is not empty and whose
    promise fulfils has its resolved value as snapshot (the array of the
    collection for a hasMany); no message was sent, and every record has
    the state, properties and attributes it had. *)
Theorem snapshotSettled_captures (id : ident) (w : world)
    (im : internalModel) (name : string) (m : relationshipMeta) :
  recs w !! id = Some im →
  pending w = [] →
  NoDup (keys (relationshipsByName im)) →
  (name, m) ∈ relationshipsByName im →
  meta_dependent m = true →
  truthy (get_prop im name) = true →
  is_Some (settle (get_prop im name)) →
  (meta_kind m = hasMany → isArray (get_prop im name) = true) →
  ∃ w', snapshotSettled id w = Ret w'
        ∧ snapshotOf w' id name = Some (prop_value (get_prop im name))
        ∧ sent w' = sent w
        ∧ pending w' = []
        ∧ ∀ r, (λ im, (currentState im, properties im, relationshipsByName im,
                       _attributes im)) <$> recs w' !! r
               = (λ im, (currentState im, properties im,
                         relationshipsByName im, _attributes im))
                   <$> recs w !! r.
Proof.
  intros Him Hpending Hnd Hin Hdep Ht Hsettle Hkind.
  destruct (settled_capture id w im name m Him Hpending Hnd Hin Hdep Ht
              Hsettle Hkind) as (w' & Heq & Hsnap & Hrest).
  exists w'. split; [exact Heq|]. split; [exact Hsnap|exact Hrest].
Qed.

Lemma snapshotSettled_captures_witness :
  ∃ w', snapshotSettled 1 (Examples.world_of Examples.inflight) = Ret w'
        ∧ snapshotOf w' 1 "children"
          = Some (prop_value (get_prop Examples.inflight_thing "children"))
        ∧ sent w' = []
        ∧ pending w' = []
        ∧ ∀ r, (λ im, (currentState im, properties im, relationshipsByName im,
                       _attributes im)) <$> recs w' !! r
               = (λ im, (currentState im, properties im,
                         relationshipsByName im, _attributes im))
                   <$> Examples.inflight !! r.
Proof.
  apply (snapshotSettled_captures 1 (Examples.world_of Examples.inflight)
           Examples.inflight_thing "children"
           {| meta_kind := hasMany; meta_dependent := true |}).
  - reflexivity.
  - reflexivity.
  - apply NoDup_singleton.
  - by left.
  - reflexivity.
  - reflexivity.
  - by eexists.
  - reflexivity.
Defined.

(** X10: no spurious dirtiness right after a snapshot.  After the settled
    capture a dependent collection whose promise fulfils is not a dirty
    relationship: [isRelationshipDirty] returns [false] for it. *)
Theorem snapshot_then_not_dirty (id : ident) (w : world)
    (im : internalModel) (name : string) (m : relationshipMeta) :
  recs w !! id = Some im →
  pending w = [] →
  NoDup (keys (relationshipsByName im)) →
  (name, m) ∈ relationshipsByName im →
  meta_dependent m = true →
  isArray (get_prop im name) = true →
  is_Some (settle (get_prop im name)) →
  ∃ w' im', snapshotSettled id w = Ret w'
            ∧ recs w' !! id = Some im'
            ∧ isRelationshipDirty im' name = Ret false.
Proof.
  intros Him Hpending Hnd Hin Hdep Harr Hsettle.
  assert (Ht : truthy (get_prop im name) = true).
  { by destruct (get_prop im name) as [[]| |]. }
  destruct (settled_capture id w im name m Him Hpending Hnd Hin Hdep Ht
              Hsettle (fun _ => Harr))
    as (w' & Heq & Hsnap & _ & _ & Hframe).
  specialize (Hframe id). rewrite Him in Hframe.
  destruct (recs w' !! id) as [im'|] eqn:Him'; [|done].
  simpl in Hframe. injection Hframe as _ Hprops _ _.
  exists w', im'. split; [done|]. split; [done|].
  unfold snapshotOf in Hsnap. rewrite Him' in Hsnap.
  assert (Ho : _dependentRelationships im' = Some (hash_of im')).
  { unfold hash_of in *. destruct (_dependentRelationships im'); [done|].
    simpl in Hsnap. done. }
  rewrite <- (get_prop_properties im im' name Hprops) in Harr, Hsnap.
  rewrite (isRelationshipDirty_array im' _ name Ho Harr).
  f_equal. apply bool_decide_eq_false_2. intros Hne. apply Hne.
  unfold snapshot_entry. by rewrite Hsnap.
Qed.

Lemma snapshot_then_not_dirty_witness :
  ∃ w' im', snapshotSettled 1 (Examples.world_of Examples.inflight) = Ret w'
            ∧ recs w' !! 1 = Some im'
            ∧ isRelationshipDirty im' "children" = Ret false.
Proof.
  apply (snapshot_then_not_dirty 1 (Examples.world_of Examples.inflight)
           Examples.inflight_thing "children"
           {| meta_kind := hasMany; meta_dependent := true |}).
  - reflexivity.
  - reflexivity.
  - apply NoDup_singleton.
  - by left.
  - reflexivity.
  - reflexivity.
  - by eexists.
Defined.

(** X11: the capture only writes entries of the record's own dependent
    relationships that hold a value.  The snapshot entry of any other
    record, and of any name that is not a dependent relationship with a
    non-empty value (the guard of line 240), is after the settled capture
    what it was before. *)
Theorem snapshotSettled_keeps_other_entries (id id' : ident) (w : world)
    (im : internalModel) (name : string) :
  recs w !! id = Some im →
  pending w = [] →
  id' ≠ id
  ∨ (∀ m, (name, m) ∈ relationshipsByName im → meta_dependent m = true →
          truthy (get_prop im name) = false) →
  ∃ w', snapshotSettled id w = Ret w'
        ∧ snapshotOf w' id' name = snapshotOf w id' name.
Proof.
  intros Him Hpending Hother.
  rewrite (snapshotSettled_eq id w im Him Hpending).
  eexists. split; [reflexivity|]. unfold flush.
  set (W1 := {| recs := <[id := ensure_hash im]> (recs w); sent := sent w;
                pending := snapshot_jobs id im (relationshipsByName im) |}).
  change (snapshotOf (run_jobs (snapshot_jobs id im (relationshipsByName im))
                        W1) id' name = snapshotOf w id' name).
  rewrite run_jobs_other.
  - unfold snapshotOf. subst W1. simpl.
    destruct (decide (id' = id)) as [->|Hne].
    + by rewrite lookup_insert_eq, Him, hash_of_ensure_hash.
    + by rewrite lookup_insert_ne.
  - eapply Forall_impl; [apply snapshot_jobs_relationship|].
    intros j (Hid & Hrel & Ht & m & Hin & Hdep & _). simpl.
    destruct Hother as [Hne|Hempty]; [left; congruence|].
    right; left. intros ->. rewrite Hrel in Ht.
    by rewrite (Hempty m Hin Hdep) in Ht.
Qed.

Lemma snapshotSettled_keeps_other_entries_witness :
  ∃ w', snapshotSettled 1 (Examples.world_of Examples.orphaned) = Ret w'
        ∧ snapshotOf w' 1 "brewery"
          = snapshotOf (Examples.world_of Examples.orphaned) 1 "brewery".
Proof.
  apply (snapshotSettled_keeps_other_entries 1 1
           (Examples.world_of Examples.orphaned) Examples.orphan_beer
           "brewery").
  - reflexivity.
  - reflexivity.
  - right. intros m _ _. reflexivity.
Defined.

Lemma set_hash_same (im : internalModel) (o : list (string * value)) :
  _dependentRelationships im = Some o → set_hash im o = im.
Proof. intros H. unfold set_hash. rewrite <- H. by destruct im. Qed.

Lemma write_snapshot_noop (id : ident) (name : string) (v : value)
    (w : world) :
  snapshotOf w id name = Some v → write_snapshot id name v w = w.
Proof.
  unfold snapshotOf, write_snapshot.
  destruct (recs w !! id) as [im|] eqn:Him; [|done]. intros Hv.
  rewrite (assign_same _ _ _ Hv).
  assert (Ho : _dependentRelationships im = Some (hash_of im)).
  { unfold hash_of in *. by destruct (_dependentRelationships im). }
  rewrite (set_hash_same im _ Ho), insert_id by done. apply set_recs_same.
Qed.

Lemma write_snapshot_hash (id : ident) (name : string) (v : value)
    (w : world) (r : ident) :
  (∃ im o, recs w !! r = Some im ∧ _dependentRelationships im = Some o) →
  ∃ im o, recs (write_snapshot id name v w) !! r = Some im
          ∧ _dependentRelationships im = Some o.
Proof.
  intros (im & o & Him & Ho). unfold write_snapshot.
  destruct (recs w !! id) as [im'|] eqn:Him'; [|eauto]. simpl.
  destruct (decide (r = id)) as [->|Hne].
  - rewrite lookup_insert_eq. eauto.
  - rewrite lookup_insert_ne by done. eauto.
Qed.

Lemma run_jobs_hash (js : list job) (w : world) (r : ident) :
  (∃ im o, recs w !! r = Some im ∧ _dependentRelationships im = Some o) →
  ∃ im o, recs (run_jobs js w) !! r = Some im
          ∧ _dependentRelationships im = Some o.
Proof.
  revert w. induction js as [|j js IH]; intros w Hw; [done|].
  change (run_jobs (j :: js) w) with (run_jobs js (run_job j w)).
  apply IH. unfold run_job. destruct (settle _) as [v|]; [|done].
  destruct (job_kind j); [by apply write_snapshot_hash|].
  destruct v; try done. destruct (recs w !! job_record j); [|done].
  destruct (toArray _); [by apply write_snapshot_hash|done].
Qed.

(** A callback whose value is already the snapshot changes nothing. *)
Lemma run_job_settled (j : job) (w : world) (id : ident)
    (im : internalModel) :
  properties <$> recs w !! id = Some (properties im) →
  job_record j = id →
  job_relationship j = get_prop im (job_name j) →
  (∀ v, settle (get_prop im (job_name j)) = Some v →
        (job_kind j = hasMany → isArray (get_prop im (job_name j)) = true) →
        snapshotOf w id (job_name j) = Some v) →
  run_job j w = w.
Proof.
  intros Hprops Hid Hrel Hthere. unfold run_job. rewrite Hrel, Hid.
  destruct (settle (get_prop im (job_name j))) as [v|] eqn:Hv; [|done].
  destruct (recs w !! id) as [im'|] eqn:Him'; [|done].
  simpl in Hprops. injection Hprops as Hprops.
  destruct (job_kind j) eqn:Hkind.
  - apply write_snapshot_noop. by apply Hthere.
  - destruct (isArray (get_prop im (job_name j))) eqn:Harr.
    + rewrite (settle_array _ _ Harr Hv).
      rewrite (get_prop_properties im im' _ Hprops).
      destruct (toArray_held _ Harr) as [-> _].
      apply write_snapshot_noop.
      rewrite <- (settle_array _ _ Harr Hv). by apply Hthere.
    + rewrite (get_prop_properties im im' _ Hprops).
      rewrite (toArray_not_array _ Harr). by destruct v.
Qed.

Lemma run_jobs_settled (js : list job) (w : world) (id : ident)
    (im : internalModel) :
  properties <$> recs w !! id = Some (properties im) →
  Forall (fun j =>
            job_record j = id
            ∧ job_relationship j = get_prop im (job_name j)
            ∧ ∀ v, settle (get_prop im (job_name j)) = Some v →
                   (job_kind j = hasMany →
                    isArray (get_prop im (job_name j)) = true) →
                   snapshotOf w id (job_name j) = Some v) js →
  run_jobs js w = w.
Proof.
  intros Hprops Hjs. induction Hjs as [|j js (Hid & Hrel & Hthere) _ IH];
    [done|].
  change (run_jobs (j :: js) w) with (run_jobs js (run_job j w)).
  by rewrite (run_job_settled j w id im Hprops Hid Hrel Hthere).
Qed.

Lemma snapshot_jobs_ext (id : ident) (im im' : internalModel)
    (rels : list (string * relationshipMeta)) :
  properties im' = properties im →
  snapshot_jobs id im' rels = snapshot_jobs id im rels.
Proof.
  intros Hprops. induction rels as [|[name m] rels IH]; simpl; [done|].
  by rewrite (get_prop_properties im im' name Hprops), IH.
Qed.

(** X12: the settled capture is idempotent.  Capturing again right after a
    capture, with nothing changed in between, returns the same world: the
    same snapshot entries, states and values, and an empty queue. *)
Theorem snapshotSettled_idempotent (id : ident) (w : world)
    (im : internalModel) :
  recs w !! id = Some im →
  pending w = [] →
  NoDup (keys (relationshipsByName im)) →
  ∃ w1, snapshotSettled id w = Ret w1 ∧ snapshotSettled id w1 = Ret w1.
Proof.
  intros Him Hpending Hnd.
  rewrite (snapshotSettled_eq id w im Him Hpending).
  set (js := snapshot_jobs id im (relationshipsByName im)).
  set (W1 := {| recs := <[id := ensure_hash im]> (recs w); sent := sent w;
                pending := js |}).
  exists (flush W1). split; [done|].
  assert (HW1 : recs W1 !! id = Some (ensure_hash im)).
  { subst W1. simpl. by rewrite lookup_insert_eq. }
  assert (HpropsW1 : properties <$> recs W1 !! id = Some (properties im)).
  { rewrite HW1. simpl. by destruct (ensure_hash_same im) as (_ & _ & -> & _). }
  destruct (run_jobs_frame js W1) as (_ & _ & Hframe).
  destruct (run_jobs_hash js W1 id) as (im1 & o1 & Him1 & Ho1).
  { exists (ensure_hash im), (hash_of im). split; [done|].
    apply ensure_hash_hash. }
  pose proof (Hframe id) as Hf. rewrite Him1, HW1 in Hf. simpl in Hf.
  destruct (ensure_hash_same im) as (Hr & _ & Hp & _).
  rewrite Hr, Hp in Hf. injection Hf as _ Hprops1 Hrels1 _.
  assert (Hjobs : Forall (fun j =>
            job_record j = id
            ∧ job_relationship j = get_prop im (job_name j)
            ∧ ∀ v, settle (get_prop im (job_name j)) = Some v →
                   (job_kind j = hasMany →
                    isArray (get_prop im (job_name j)) = true) →
                   snapshotOf (run_jobs js W1) id (job_name j) = Some v) js).
  { pose proof (snapshot_jobs_relationship id im (relationshipsByName im))
      as Hall. fold js in Hall.
    apply Forall_forall. intros j Hj.
    pose proof (proj1 (Forall_forall _ _) Hall j Hj)
      as (Hid & Hrel & _ & m & Hin & _ & Hk).
    split; [done|]. split; [done|]. intros v Hv Hkind.
    apply (run_jobs_captures js W1 id im (job_name j) v HpropsW1 Hv).
    - eapply Forall_impl; [exact Hall|].
      intros j' (Hid' & Hrel' & _ & m' & Hin' & _ & Hk'). simpl.
      split; [done|]. split; [done|]. intros Hname Hmany. apply Hkind.
      rewrite Hname in Hin'.
      rewrite Hk, (keys_NoDup_inj _ _ m m' Hnd Hin Hin'). congruence.
    - right. by exists j. }
  assert (Hflush : recs (flush W1) !! id = Some im1) by exact Him1.
  rewrite (snapshotSettled_eq id (flush W1) im1 Hflush eq_refl).
  rewrite (ensure_hash_Some im1 o1 Ho1), insert_id by done.
  rewrite Hrels1, (snapshot_jobs_ext id im im1 _ Hprops1). fold js.
  f_equal. unfold flush at 1. cbn [pending recs sent].
  set (W2 := {| recs := recs (flush W1); sent := sent (flush W1);
                pending := js |}).
  assert (HW2 : run_jobs js W2 = W2).
  { apply (run_jobs_settled js W2 id im).
    - subst W2. cbn [recs]. change (recs (flush W1)) with (recs (run_jobs js W1)).
      rewrite Him1. simpl. by rewrite Hprops1.
    - exact Hjobs. }
  rewrite HW2. reflexivity.
Qed.

Lemma snapshotSettled_idempotent_witness :
  ∃ w1, snapshotSettled 1 (Examples.world_of Examples.inflight) = Ret w1
        ∧ snapshotSettled 1 w1 = Ret w1.
Proof.
  apply (snapshotSettled_idempotent 1 (Examples.world_of Examples.inflight)
           Examples.inflight_thing).
  - reflexivity.
  - reflexivity.
  - apply NoDup_singleton.
Defined.

(** ** The relationship check *)

(** X13: every case of [isRelationshipDirty] (lines 72-77).  It throws when
    the relationship does not hold a collection or the record has no
    snapshot hash; otherwise it returns [false] exactly when the hash has an
    entry for the key that is the array of the current collection, record
    for record in the same order, so a relationship without an entry, or
    with as many but other records, is dirty. *)
Theorem isRelationshipDirty_cases (im : internalModel) (key : string) :
  isRelationshipDirty im key
  = if isArray (get_prop im key) then
      match _dependentRelationships im with
      | Some o =>
          Ret (bool_decide
                 (assoc key o ≠ Some (VArray (held (get_prop im key)))))
      | None => Throw
      end
    else Throw.
Proof.
  destruct (isArray (get_prop im key)) eqn:Harr.
  - destruct (_dependentRelationships im) as [o|] eqn:Ho.
    + rewrite (isRelationshipDirty_array im o key Ho Harr).
      destruct (toArray_held _ Harr) as [_ ->]. f_equal.
      apply bool_decide_ext. unfold snapshot_entry.
      destruct (assoc key o) as [v|]; split; congruence.
    + unfold isRelationshipDirty.
      destruct (toArray_held _ Harr) as [-> _]. simpl. by rewrite Ho.
  - by apply isRelationshipDirty_not_array.
Qed.

(** ** Rollback without snapshots *)

Lemma eachRollback_no_hash (fw : framework)
    (method : ident → world → option (outcome world)) (id : ident)
    (im : internalModel) (rels : list (string * relationshipMeta))
    (w : world) :
  recs w !! id = Some im →
  _dependentRelationships im = None →
  (∃ name m, (name, m) ∈ rels ∧ meta_dependent m = true) →
  eachRollback fw method id rels w = Some Throw.
Proof.
  intros Him Ho. induction rels as [|[n0 m0] rels IH]; simpl.
  - intros (? & ? & Hin & _). by apply elem_of_nil in Hin.
  - intros (name & m & Hin & Hdep).
    destruct (meta_dependent m0) eqn:Hdep0.
    + unfold rollbackRelationship. by rewrite Him, Ho.
    + apply IH. exists name, m. split; [|done].
      apply elem_of_cons in Hin as [Heq|Hin]; [|done].
      simplify_eq. congruence.
Qed.

(** X14: rollback of a record that never got a snapshot hash.  When the
    original [rollbackAttributes] has returned and the internal model has no
    [_dependentRelationships], the test [name in dependentRelations] of
    line 292 throws for the first dependent relationship: the decorated
    rollback fails although the attributes have been rolled back. *)
Theorem rollback_without_hash_throws (fw : framework) (fuel : nat)
    (id : ident) (w w0 : world) (im : internalModel) :
  fw_rollbackAttributes fw id w = Ret w0 →
  recs w0 !! id = Some im →
  _dependentRelationships im = None →
  (∃ name m, (name, m) ∈ relationshipsByName im ∧ meta_dependent m = true) →
  rollbackAttributes fw (S fuel) id w = Some Throw.
Proof.
  intros Horig Him Ho Hdep. simpl. rewrite Horig, Him.
  by apply (eachRollback_no_hash fw _ id im).
Qed.

Lemma rollback_without_hash_throws_witness :
  rollbackAttributes (EmberData 5) 1 1
    (Examples.world_of
       (<[1 := Examples.thing loaded_saved [] None [2]]> Examples.settled))
  = Some Throw.
Proof.
  eapply (rollback_without_hash_throws (EmberData 5) 0 1).
  - reflexivity.
  - reflexivity.
  - reflexivity.
  - exists "children", {| meta_kind := hasMany; meta_dependent := true |}.
    split; [by left|done].
Defined.

Lemma eachRollback_unsnapshotted (fw : framework)
    (method : ident → world → option (outcome world)) (id : ident)
    (im : internalModel) (rels : list (string * relationshipMeta))
    (w : world) :
  recs w !! id = Some im →
  (∀ name m, (name, m) ∈ rels → meta_dependent m = true →
             ∃ o, _dependentRelationships im = Some o
                  ∧ assoc name o = None) →
  eachRollback fw method id rels w = Some (Ret w).
Proof.
  intros Him. induction rels as [|[n0 m0] rels IH]; intros Hall; simpl;
    [done|].
  assert (Hall' : ∀ name m, (name, m) ∈ rels → meta_dependent m = true →
                    ∃ o, _dependentRelationships im = Some o
                         ∧ assoc name o = None).
  { intros name m Hin Hd. apply (Hall name m); [by right|done]. }
  destruct (meta_dependent m0) eqn:Hdep0; [|by apply IH].
  destruct (Hall n0 m0) as (o & Ho & Hnone); [by left|done|].
  unfold rollbackRelationship. rewrite Him, Ho, Hnone. by apply IH.
Qed.

(** X15: rollback does not touch what was never snapshotted.  When no
    dependent relationship of the record has a snapshot entry (the guard of
    line 292), and in particular when the record has no dependent
    relationship at all, the decorated [rollbackAttributes] is the original
    method: it returns the world the original returned. *)
Theorem rollback_unsnapshotted_is_original (fw : framework) (fuel : nat)
    (id : ident) (w w0 : world) (im : internalModel) :
  fw_rollbackAttributes fw id w = Ret w0 →
  recs w0 !! id = Some im →
  (∀ name m, (name, m) ∈ relationshipsByName im → meta_dependent m = true →
             ∃ o, _dependentRelationships im = Some o
                  ∧ assoc name o = None) →
  rollbackAttributes fw (S fuel) id w = Some (Ret w0).
Proof.
  intros Horig Him Hall. simpl. rewrite Horig, Him.
  by apply (eachRollback_unsnapshotted fw _ id im).
Qed.

Lemma rollback_unsnapshotted_is_original_witness :
  rollbackAttributes (EmberData 5) 1 1 (Examples.world_of App.cellar)
  = Some (Ret (Examples.world_of
                 (<[1 := App.Beer loaded_saved [] (VRecord 2)]> App.cellar))).
Proof.
  eapply (rollback_unsnapshotted_is_original (EmberData 5) 0 1).
  - vm_compute. reflexivity.
  - reflexivity.
  - intros name m Hin Hdep. apply list_elem_of_singleton in Hin.
    injection Hin as -> ->. done.
Defined.

(** ** The handlers that ask whether the record is dirty *)

Lemma isRecordDirty_dirty_key (st : store) (im : internalModel)
    (o : list (string * value)) (k : string) :
  _dependentRelationships im = Some o →
  (∀ k', k' ∈ keys o → isArray (get_prop im k') = true) →
  k ∈ keys o →
  snapshot_entry o k ≠ prop_value (get_prop im k)
  ∨ (∃ r, r ∈ held (get_prop im k) ∧ hasDirtyAttributes st r = true) →
  isRecordDirty st im = Ret (JBool true).
Proof.
  intros Ho Harr Hk Hdirty. unfold isRecordDirty.
  destruct (_attributes im); simpl; [|done]. rewrite Ho.
  rewrite (any_key_existsb _
             (fun k => bool_decide
                         (snapshot_entry o k ≠ prop_value (get_prop im k))
                       || truthy_jsbool
                            (isRelatedRecordDirty st (get_prop im k)))).
  2: { intros k' Hk'.
       rewrite (isRelationshipDirty_array im o k' Ho (Harr k' Hk')).
       simpl. by destruct (bool_decide _). }
  simpl. do 2 f_equal. apply existsb_exists. exists k.
  split; [by apply list_elem_of_In|]. apply orb_true_iff.
  destruct Hdirty as [Hd|Hd].
  - left. by apply bool_decide_eq_true_2.
  - right. by apply isRelatedRecordDirty_held.
Qed.

Lemma isRecordDirty_clean_collections (st : store) (im : internalModel) :
  clean_record st im →
  (∀ k, k ∈ keys (hash_of im) → isArray (get_prop im k) = true) →
  isRecordDirty st im = Ret (JBool false).
Proof.
  intros (Hattrs & o & Ho & Hkeys) Harr. unfold isRecordDirty.
  rewrite Hattrs. simpl. rewrite Ho.
  assert (Hh : hash_of im = o) by (unfold hash_of; by rewrite Ho).
  rewrite Hh in Harr.
  rewrite (any_key_existsb _
             (fun k => bool_decide
                         (snapshot_entry o k ≠ prop_value (get_prop im k))
                       || truthy_jsbool
                            (isRelatedRecordDirty st (get_prop im k)))).
  2: { intros k' Hk'.
       rewrite (isRelationshipDirty_array im o k' Ho (Harr k' Hk')).
       simpl. by destruct (bool_decide _). }
  simpl. do 2 f_equal.
  destruct (existsb _ (keys o)) eqn:Hex; [|done].
  apply existsb_exists in Hex as (k & Hk%list_elem_of_In & Hb).
  pose proof Hk as [orig Horig]%assoc_keys.
  destruct (Hkeys k orig Horig) as [Hat Hclean].
  apply at_snapshot_get_prop in Hat as [_ Hat].
  rewrite existsb_held, Hclean, orb_false_r in Hb.
  apply bool_decide_eq_true_1 in Hb. exfalso. apply Hb.
  unfold snapshot_entry. rewrite Horig.
  by destruct Hat as [->|(l & f & -> & ->)].
Qed.

(** X16: resetting a property does not roll back a record whose dependents
    are still dirty (lines 116-120, 145-146).  For a record in an
    uncommitted state whose snapshotted relationships hold collections,
    when some such collection differs from its snapshot or holds a dirty
    record, [propertyWasReset] is handled without sending [rolledBack]: the
    world is as before, but for the message itself. *)
Theorem propertyWasReset_keeps_dirty (fw : framework) (id : ident)
    (w : world) (im : internalModel) (o : list (string * value))
    (k : string) :
  recs w !! id = Some im →
  currentState im = created_uncommitted
  ∨ currentState im = updated_uncommitted →
  _dependentRelationships im = Some o →
  (∀ k', k' ∈ keys o → isArray (get_prop im k') = true) →
  k ∈ keys o →
  snapshot_entry o k ≠ prop_value (get_prop im k)
  ∨ (∃ r, r ∈ held (get_prop im k) ∧ hasDirtyAttributes (recs w) r = true) →
  send fw id propertyWasReset w = Ret (record_sent w id propertyWasReset).
Proof.
  intros Him Hstate Ho Harr Hk Hdirty.
  pose proof (isRecordDirty_dirty_key (recs w) im o k Ho Harr Hk Hdirty)
    as Hd.
  unfold send, send_propertyWasReset, with_model. rewrite Him.
  destruct Hstate as [Hs|Hs]; rewrite Hs;
    unfold propertyWasReset_handler, with_model; simpl; rewrite Him;
    simpl; by rewrite Hd.
Qed.

Lemma propertyWasReset_keeps_dirty_witness :
  send (EmberData 5) 1 propertyWasReset
    (Examples.world_of Examples.child_renamed)
  = Ret (record_sent (Examples.world_of Examples.child_renamed) 1
           propertyWasReset).
Proof.
  apply (propertyWasReset_keeps_dirty (EmberData 5) 1
           (Examples.world_of Examples.child_renamed)
           (Examples.thing updated_uncommitted []
              (Some [("children", VArray [2])]) [2])
           [("children", VArray [2])] "children").
  - reflexivity.
  - by right.
  - reflexivity.
  - intros k' Hk'. apply list_elem_of_singleton in Hk' as ->. reflexivity.
  - by left.
  - right. exists 2. split; [by left|reflexivity].
Defined.

(** X17: resetting a property rolls a clean record back.  For a record in
    an uncommitted state that is clean and whose snapshotted relationships
    hold collections, [propertyWasReset] sends [rolledBack]. *)
Theorem propertyWasReset_rolls_back_clean (fw : framework) (id : ident)
    (w : world) (im : internalModel) :
  recs w !! id = Some im →
  currentState im = created_uncommitted
  ∨ currentState im = updated_uncommitted →
  clean_record (recs w) im →
  (∀ k, k ∈ keys (hash_of im) → isArray (get_prop im k) = true) →
  send fw id propertyWasReset w
  = send_framework fw id rolledBack (record_sent w id propertyWasReset).
Proof.
  intros Him Hstate Hclean Harr.
  pose proof (isRecordDirty_clean_collections (recs w) im Hclean Harr) as Hd.
  unfold send, send_propertyWasReset, with_model. rewrite Him.
  destruct Hstate as [Hs|Hs]; rewrite Hs;
    unfold propertyWasReset_handler, with_model; simpl; rewrite Him;
    simpl; by rewrite Hd.
Qed.

(** X18: a record that enters [loaded.saved] with dirty dependents is made
    dirty again (lines 123-127, 150).  When a snapshotted collection of the
    record differs from its snapshot or holds a dirty record, [savedSetup]
    calls [adapterDidDirty]. *)
Theorem savedSetup_dirties (fw : framework) (id : ident) (w : world)
    (im : internalModel) (o : list (string * value)) (k : string) :
  recs w !! id = Some im →
  _dependentRelationships im = Some o →
  (∀ k', k' ∈ keys o → isArray (get_prop im k') = true) →
  k ∈ keys o →
  snapshot_entry o k ≠ prop_value (get_prop im k)
  ∨ (∃ r, r ∈ held (get_prop im k) ∧ hasDirtyAttributes (recs w) r = true) →
  savedSetup fw id w = fw_adapterDidDirty fw id w.
Proof.
  intros Him Ho Harr Hk Hdirty.
  pose proof (isRecordDirty_dirty_key (recs w) im o k Ho Harr Hk Hdirty)
    as Hd.
  unfold savedSetup, with_model. rewrite Him. simpl. by rewrite Hd.
Qed.

Lemma propertyWasReset_rolls_back_clean_witness :
  send (EmberData 5) 1 propertyWasReset
    (Examples.world_of
       (<[1 := Examples.thing updated_uncommitted []
                 (Some [("children", VArray [2])]) [2]]> Examples.settled))
  = send_framework (EmberData 5) 1 rolledBack
      (record_sent
         (Examples.world_of
            (<[1 := Examples.thing updated_uncommitted []
                      (Some [("children", VArray [2])]) [2]]>
               Examples.settled))
         1 propertyWasReset).
Proof.
  apply (propertyWasReset_rolls_back_clean (EmberData 5) 1
           (Examples.world_of
              (<[1 := Examples.thing updated_uncommitted []
                        (Some [("children", VArray [2])]) [2]]>
                 Examples.settled))
           (Examples.thing updated_uncommitted []
              (Some [("children", VArray [2])]) [2])).
  - reflexivity.
  - by right.
  - apply isRecordDirty_false_clean. reflexivity.
  - intros k Hk. apply list_elem_of_singleton in Hk as ->. reflexivity.
Defined.

Lemma savedSetup_dirties_witness :
  savedSetup (EmberData 5) 1 (Examples.world_of Examples.child_renamed)
  = fw_adapterDidDirty (EmberData 5) 1
      (Examples.world_of Examples.child_renamed).
Proof.
  apply (savedSetup_dirties (EmberData 5) 1
           (Examples.world_of Examples.child_renamed)
           (Examples.thing updated_uncommitted []
              (Some [("children", VArray [2])]) [2])
           [("children", VArray [2])] "children").
  - reflexivity.
  - reflexivity.
  - intros k' Hk'. apply list_elem_of_singleton in Hk' as ->. reflexivity.
  - by left.
  - right. exists 2. split; [by left|reflexivity].
Defined.

(** ** Records without dependent relationships *)

Lemma eachDependentRelationship_none {S : Type}
    (rels : list (string * relationshipMeta))
    (callback : string → relationshipMeta → S → outcome S) (s : S) :
  (∀ name m, (name, m) ∈ rels → meta_dependent m = false) →
  eachDependentRelationship rels callback s = Ret s.
Proof.
  induction rels as [|[name m] rels IH]; intros Hall; simpl; [done|].
  rewrite (Hall name m) by (by left). apply IH.
  intros name' m' Hin. apply (Hall name' m'). by right.
Qed.

(** X19: a model without dependent relationships, like the [Beer] of the
    application, is left alone: the capture queues no callback and only
    gives the internal model its empty hash, and no relationship is ever
    reported as changed. *)
Theorem independent_record_left_alone (id : ident) (w : world)
    (im : internalModel) :
  recs w !! id = Some im →
  (∀ name m, (name, m) ∈ relationshipsByName im → meta_dependent m = false) →
  snapshotDependentRelations id w
  = Ret (set_recs w (<[id := ensure_hash im]> (recs w)))
  ∧ changes_of id w = Ret [].
Proof.
  intros Him Hall.
  destruct (ensure_hash_same im) as (Hrels & _).
  split.
  - unfold snapshotDependentRelations, internalModelFor, with_model.
    rewrite Him. cbn [bind fst snd]. rewrite Hrels.
    by apply eachDependentRelationship_none.
  - unfold changes_of, changedRelationships, internalModelFor, with_model.
    rewrite Him. cbn [bind fst snd]. rewrite Hrels.
    by rewrite eachDependentRelationship_none.
Qed.

Lemma independent_record_left_alone_witness :
  snapshotDependentRelations 1 (Examples.world_of App.cellar)
  = Ret (set_recs (Examples.world_of App.cellar)
           (<[1 := ensure_hash
                     (App.Beer updated_uncommitted ["name"] (VRecord 2))]>
              App.cellar))
  ∧ changes_of 1 (Examples.world_of App.cellar) = Ret [].
Proof.
  apply (independent_record_left_alone 1 (Examples.world_of App.cellar)
           (App.Beer updated_uncommitted ["name"] (VRecord 2))).
  - reflexivity.
  - intros name m Hin. apply list_elem_of_singleton in Hin.
    injection Hin as -> ->. reflexivity.
Defined.

(** ** The capture before its callbacks run *)


